(** * The image component of tdesign-react: loading state machine and render plan

    A shallow embedding of [src/image/Image.tsx].  The component is a React
    function component: its [useState] cells become the fields of a state
    record, its event handlers and effects become functions on that record,
    and the JSX it returns becomes a record of the regions it mounts.  The
    browser and the parent component drive the machine through events. *)

From Stdlib Require Import String List Bool Arith Lia.
Import ListNotations.
Open Scope string_scope.

(** ** Values *)

(** The [src] property is typed [string | File] and may be left out.  A
    [File] is an object: [===] compares it by identity, which the embedding
    keeps as a number naming the object. *)
Inductive ImageSource : Type :=
| SrcUndefined
| SrcString (s : string)
| SrcFile (ref : nat).

(** JavaScript truthiness of a string: every string but the empty one. *)
Definition truthyString (s : string) : bool := negb (String.eqb s "").

(** JavaScript truthiness of a source: [undefined] and [''] are falsy. *)
Definition truthy (v : ImageSource) : bool :=
  match v with
  | SrcUndefined => false
  | SrcString s => truthyString s
  | SrcFile _ => true
  end.

(** The [===] of JavaScript on sources. *)
Definition strictEq (a b : ImageSource) : bool :=
  match a, b with
  | SrcUndefined, SrcUndefined => true
  | SrcString x, SrcString y => String.eqb x y
  | SrcFile i, SrcFile j => Nat.eqb i j
  | _, _ => false
  end.

Inductive OverlayTrigger : Type := always | hover.

(** The properties the component destructures (lines 25-45).  Renderable
    properties are kept as the truthiness the code tests; [srcset] is the
    mapping as [Object.entries] lists it; [onLoad] and [onError] say whether
    the caller supplied the callback. *)
Record ImageProps : Type := mkProps {
  src : ImageSource;
  srcset : option (list (string * string));
  fallback : option string;
  lazy : bool;
  overlayTrigger : option OverlayTrigger;
  overlayContent : bool;
  placeholder : bool;
  gallery : bool;
  onLoad : bool;
  onError : bool
}.

(** The locale object of [useLocaleReceiver]: only [replaceImageSrc] takes
    part in the state machine; [None] is a value [isFunction] rejects. *)
Record Locale : Type := mkLocale {
  replaceImageSrc : option (ImageProps -> string)
}.

(** An invocation of one of the caller's callbacks, with the event [e] it was
    handed. *)
Inductive Callback : Type :=
| CbLoad (e : nat)
| CbError (e : nat).

(** ** Component state *)

(** One field per [useState] cell, the current properties and locale, the
    value the preview hook last returned, whether the intersection observer
    is registered, and the callbacks invoked so far, oldest first. *)
Record State : Type := mkState {
  props : ImageProps;
  local : Locale;
  imageSrc : ImageSource;
  previewUrl : string;
  shouldLoad : bool;
  isLoaded : bool;
  hasError : bool;
  shouldShowOverlay : bool;
  observing : bool;
  calls : list Callback
}.

Definition setProps (p : ImageProps) (l : Locale) (s : State) : State :=
  mkState p l (imageSrc s) (previewUrl s) (shouldLoad s) (isLoaded s)
          (hasError s) (shouldShowOverlay s) (observing s) (calls s).

Definition setImageSrc (v : ImageSource) (s : State) : State :=
  mkState (props s) (local s) v (previewUrl s) (shouldLoad s) (isLoaded s)
          (hasError s) (shouldShowOverlay s) (observing s) (calls s).

Definition setPreviewUrl (u : string) (s : State) : State :=
  mkState (props s) (local s) (imageSrc s) u (shouldLoad s) (isLoaded s)
          (hasError s) (shouldShowOverlay s) (observing s) (calls s).

Definition setShouldLoad (b : bool) (s : State) : State :=
  mkState (props s) (local s) (imageSrc s) (previewUrl s) b (isLoaded s)
          (hasError s) (shouldShowOverlay s) (observing s) (calls s).

Definition setIsLoaded (b : bool) (s : State) : State :=
  mkState (props s) (local s) (imageSrc s) (previewUrl s) (shouldLoad s) b
          (hasError s) (shouldShowOverlay s) (observing s) (calls s).

Definition setHasError (b : bool) (s : State) : State :=
  mkState (props s) (local s) (imageSrc s) (previewUrl s) (shouldLoad s)
          (isLoaded s) b (shouldShowOverlay s) (observing s) (calls s).

Definition setShouldShowOverlay (b : bool) (s : State) : State :=
  mkState (props s) (local s) (imageSrc s) (previewUrl s) (shouldLoad s)
          (isLoaded s) (hasError s) b (observing s) (calls s).

Definition setObserving (b : bool) (s : State) : State :=
  mkState (props s) (local s) (imageSrc s) (previewUrl s) (shouldLoad s)
          (isLoaded s) (hasError s) (shouldShowOverlay s) b (calls s).

(** [cb?.({ e })]: the callback runs only when the caller supplied it. *)
Definition invoke (present : bool) (c : Callback) (s : State) : State :=
  if present
  then mkState (props s) (local s) (imageSrc s) (previewUrl s) (shouldLoad s)
               (isLoaded s) (hasError s) (shouldShowOverlay s) (observing s)
               (calls s ++ [c])
  else s.

(** ** Handlers and effects *)

(** Line 60: the rewrite hook applied to the whole property bag when it is a
    function, the raw source otherwise. *)
Definition resolve (l : Locale) (p : ImageProps) : ImageSource :=
  match replaceImageSrc l with
  | Some f => SrcString (f p)
  | None => src p
  end.

(** Lines 59-64, the source-resolution effect: the argument of the
    [setImageSrc] call it makes, [None] when it returns at the guard. *)
Definition sourceEffect (s : State) : option ImageSource :=
  let tmpUrl := resolve (local s) (props s) in
  if strictEq tmpUrl (imageSrc s) && truthy (imageSrc s)
  then None
  else Some tmpUrl.

Definition runSourceEffect (s : State) : State :=
  match sourceEffect s with
  | Some tmpUrl => setImageSrc tmpUrl s
  | None => s
  end.

(** Lines 69-71. *)
Definition handleLoadImage (s : State) : State := setShouldLoad true s.

(** Lines 74-77. *)
Definition handleLoad (e : nat) (s : State) : State :=
  invoke (onLoad (props s)) (CbLoad e) (setIsLoaded true s).

(** Lines 96-103: the three state assignments are queued in this order and
    committed together, then [onError] runs. *)
Definition handleError (e : nat) (s : State) : State :=
  let s1 := setHasError true s in
  let s2 :=
    match fallback (props s) with
    | Some fb =>
        if truthyString fb
        then setHasError false (setImageSrc (SrcString fb) s1)
        else s1
    | None => s1
    end in
  invoke (onError (props s)) (CbError e) s2.

(** Lines 105-110, the effect on [previewUrl]. *)
Definition previewEffect (s : State) : State :=
  if hasError s && truthyString (previewUrl s)
  then setHasError false s
  else s.

(** Line 112. *)
Definition hasMouseEvent (p : ImageProps) : bool :=
  match overlayTrigger p with
  | Some hover => true
  | _ => false
  end.

(** Lines 114-116. *)
Definition handleToggleOverlay (overlay : bool) (s : State) : State :=
  setShouldShowOverlay overlay s.

(** Lines 79-93: the effect registers [handleLoadImage] with the observer
    only when [lazy] holds (the root element is always mounted, so the
    reference is attached when the effect runs); its cleanup deregisters. *)
Definition lazyEffect (s : State) : State := setObserving (lazy (props s)) s.

(** Modelled from the spec: the intersection capability [observe] of
    [_common/js/utils/observe], which is not part of the sources.  It calls
    the registered callback the first time the element intersects the
    viewport and deregisters; when nothing is registered nothing is called. *)
Definition observerFires (s : State) : State :=
  if observing s then setObserving false (handleLoadImage s) else s.

(** ** Render plan *)

(** The element the content region mounts: a lone [<img>], or a [<picture>]
    whose children are listed in document order. *)
Inductive PictureChild : Type :=
| SourceEntry (type url : string)
| ImgEntry (url : string).

Inductive Content : Type :=
| Img (url : string)
| Picture (children : list PictureChild).

(** Lines 147-162: the URL handed to [<img>]. *)
Definition renderImage (s : State) : string :=
  match imageSrc s with
  | SrcString u => u
  | _ => previewUrl s
  end.

(** Lines 164-171. *)
Definition renderImageSrcset (entries : list (string * string)) (s : State)
  : list PictureChild :=
  map (fun tu => SourceEntry (fst tu) (snd tu)) entries
  ++ (if truthy (src (props s)) then [ImgEntry (renderImage s)] else []).

(** Line 198: [srcset && Object.keys(srcset).length]. *)
Definition srcsetMode (p : ImageProps) : bool :=
  match srcset p with
  | Some (_ :: _) => true
  | _ => false
  end.

(** Line 196. *)
Definition contentCondition (s : State) : bool :=
  negb (hasError s || negb (shouldLoad s)).

(** Lines 117-131: [None] when no overlay is mounted, otherwise whether it
    carries the hidden class. *)
Definition renderOverlay (s : State) : option bool :=
  if overlayContent (props s) then Some (negb (shouldShowOverlay s)) else None.

(** What the component returns (lines 173-225), region by region. *)
Record RenderPlan : Type := mkPlan {
  mouseWired : bool;
  placeholderRegion : bool;
  galleryShadow : bool;
  contentRegion : option Content;
  loadingIndicator : bool;
  errorRegion : bool;
  overlayHidden : option bool
}.

Definition render (s : State) : RenderPlan :=
  mkPlan
    (hasMouseEvent (props s))
    (placeholder (props s))
    (gallery (props s))
    (if contentCondition s
     then Some (match srcset (props s) with
                | Some (e :: es) => Picture (renderImageSrcset (e :: es) s)
                | _ => Img (renderImage s)
                end)
     else None)
    (contentCondition s && (contentCondition s && negb (isLoaded s)))
    (hasError s)
    (renderOverlay s).

(** Whether an [<img>] element is mounted, so that the browser can deliver
    its load and error notifications. *)
Definition imgMounted (s : State) : bool :=
  match contentRegion (render s) with
  | Some (Img _) => true
  | Some (Picture cs) =>
      existsb (fun c => match c with ImgEntry _ => true | _ => false end) cs
  | None => false
  end.

(** ** The machine *)

(** The first render and the effects that follow it.  [pv] is what the
    preview hook returns on that render. *)
Definition mount (p : ImageProps) (l : Locale) (pv : string) : State :=
  previewEffect
    (lazyEffect
      (runSourceEffect
        (mkState p l (src p) pv (negb (lazy p)) false false
                 (negb (hasMouseEvent p)) false []))).

Inductive Event : Type :=
| Rerender (p : ImageProps) (l : Locale)
| Intersect
| ImgLoad (e : nat)
| ImgError (e : nat)
| MouseEnter
| MouseLeave
| PreviewUrl (u : string).

(** Modelled from the spec: the hook [useImagePreviewUrl], which is not part
    of the sources.  The string it returns is an input of the component; when
    it returns a value other than the last one, the component renders again
    and the effect that depends on [previewUrl] runs. *)
Definition previewChanges (u : string) (s : State) : State :=
  if String.eqb u (previewUrl s) then s
  else previewEffect (setPreviewUrl u s).

(** One notification, handled to completion.
    - [Rerender]: the parent renders again; the property bag is a new object,
      so the source-resolution effect runs, and the observer effect runs when
      [lazy] differs.  Renders caused by the component's own state keep the
      property bag and run neither.
    - [Intersect]: the element enters the viewport.
    - [ImgLoad], [ImgError]: delivered only to a mounted [<img>].
    - [MouseEnter], [MouseLeave]: wired only when [hasMouseEvent] (lines
      184-189).
    - [PreviewUrl]: the preview hook returns [u]. *)
Definition step (s : State) (ev : Event) : State :=
  match ev with
  | Rerender p l =>
      let s1 := runSourceEffect (setProps p l s) in
      if Bool.eqb (lazy p) (lazy (props s)) then s1 else lazyEffect s1
  | Intersect => observerFires s
  | ImgLoad e => if imgMounted s then handleLoad e s else s
  | ImgError e => if imgMounted s then handleError e s else s
  | MouseEnter =>
      if hasMouseEvent (props s) then handleToggleOverlay true s else s
  | MouseLeave =>
      if hasMouseEvent (props s) then handleToggleOverlay false s else s
  | PreviewUrl u => previewChanges u s
  end.

Definition run (s : State) (evs : list Event) : State := fold_left step evs s.

(** ** The states of the specification, read off the flags *)

Inductive LoadState : Type := NOT_STARTED | LOADED | ERRORED.

Definition loadState (s : State) : LoadState :=
  if hasError s then ERRORED
  else if isLoaded s then LOADED
  else NOT_STARTED.

Inductive VisibilityState : Type := PENDING | READY.

Definition visibilityState (s : State) : VisibilityState :=
  if shouldLoad s then READY else PENDING.

(** ** Classes of events and sample configurations *)

Definition isPointer (ev : Event) : bool :=
  match ev with
  | MouseEnter | MouseLeave => true
  | _ => false
  end.

Definition isPreview (ev : Event) : bool :=
  match ev with
  | PreviewUrl _ => true
  | _ => false
  end.

(** Events under which a lazy instance is still waiting: no intersection yet,
    and the parent keeps [lazy] set. *)
Definition keepsWaiting (ev : Event) : bool :=
  match ev with
  | Intersect => false
  | Rerender p _ => lazy p
  | _ => true
  end.

(** Events under which the overlay trigger stays other than [hover]. *)
Definition keepsUnwired (ev : Event) : bool :=
  match ev with
  | Rerender p _ => negb (hasMouseEvent p)
  | _ => true
  end.

Definition isOnError (c : Callback) : bool :=
  match c with
  | CbError _ => true
  | CbLoad _ => false
  end.

Definition onErrorCount (s : State) : nat :=
  length (filter isOnError (calls s)).

(** A caller that passes a source, possibly a fallback, and both callbacks,
    and leaves every other property at its default. *)
Definition plainProps (v : ImageSource) (fb : option string) : ImageProps :=
  mkProps v None fb false None false false false true true.

Definition withSrcset (m : list (string * string)) (p : ImageProps)
  : ImageProps :=
  mkProps (src p) (Some m) (fallback p) (lazy p) (overlayTrigger p)
          (overlayContent p) (placeholder p) (gallery p) (onLoad p)
          (onError p).

Definition withLazy (b : bool) (p : ImageProps) : ImageProps :=
  mkProps (src p) (srcset p) (fallback p) b (overlayTrigger p)
          (overlayContent p) (placeholder p) (gallery p) (onLoad p)
          (onError p).

Definition withOverlay (t : option OverlayTrigger) (p : ImageProps)
  : ImageProps :=
  mkProps (src p) (srcset p) (fallback p) (lazy p) t true (placeholder p)
          (gallery p) (onLoad p) (onError p).

Definition noHook : Locale := mkLocale None.

(** A rewrite hook that serves every image from a mirror. *)
Definition mirrorHook : Locale :=
  mkLocale (Some (fun p => match src p with
                           | SrcString u => "https://cdn/" ++ u
                           | _ => ""
                           end)).

(** ** Loading and error bodies *)

(** A renderable property ([loading], [error]) as the code tests it: left
    out, a string, or an element, which is an object and therefore truthy. *)
Inductive Renderable : Type :=
| RUndefined
| RText (s : string)
| RElement (ref : nat).

Definition truthyNode (r : Renderable) : bool :=
  match r with
  | RUndefined => false
  | RText s => truthyString s
  | RElement _ => true
  end.

Inductive StatusIcon : Type := ImageIcon | ImageErrorIcon.

(** What a status region holds: the caller's node, or the default column of
    an icon and a line of text. *)
Inductive StatusBody : Type :=
| Custom (r : Renderable)
| DefaultBody (icon : StatusIcon) (text : string).

(** Lines 201-207 and 215-220: [node || <Space> icon, typeof node ===
    'string' ? node : t(...) </Space>].  [localized] is what the locale
    lookup [t] returns for the region's text; the lookup is not part of the
    sources and its result is an input. *)
Definition statusBody (icon : StatusIcon) (node : Renderable)
    (localized : string) : StatusBody :=
  if truthyNode node then Custom node
  else DefaultBody icon
         (match node with
          | RText s => s
          | _ => localized
          end).

(** Lines 199-209: the loading region, when it is mounted. *)
Definition renderLoading (s : State) (loading : Renderable)
    (loadingText : string) : option StatusBody :=
  if loadingIndicator (render s)
  then Some (statusBody ImageIcon loading loadingText)
  else None.

(** Lines 213-222: the error region, when it is mounted. *)
Definition renderError (s : State) (error : Renderable) (errorText : string)
  : option StatusBody :=
  if errorRegion (render s)
  then Some (statusBody ImageErrorIcon error errorText)
  else None.

(** ** Further classes of events and configurations *)

(** Line 98, [if (fallback)] not taken: no fallback, or the empty string. *)
Definition noFallback (p : ImageProps) : bool :=
  match fallback p with
  | Some fb => negb (truthyString fb)
  | None => true
  end.

Definition isImgEvent (ev : Event) : bool :=
  match ev with
  | ImgLoad _ | ImgError _ => true
  | _ => false
  end.

Definition isRerender (ev : Event) : bool :=
  match ev with
  | Rerender _ _ => true
  | _ => false
  end.

(** Events under which [lazy] stays off: every re-render passes it unset. *)
Definition keepsLazyOff (ev : Event) : bool :=
  match ev with
  | Rerender p _ => negb (lazy p)
  | _ => true
  end.

(** The [onLoad] or [onError] call a notification makes, if the caller
    supplied the callback. *)
Definition callIf (present : bool) (c : Callback) : list Callback :=
  if present then [c] else [].

(** Lines 57, 68, 73, 95 and 113: the state of the first render, as it is
    committed and painted, before any effect has run.  [mount] is this state
    after the three effects. *)
Definition firstRender (p : ImageProps) (l : Locale) (pv : string) : State :=
  mkState p l (src p) pv (negb (lazy p)) false false
          (negb (hasMouseEvent p)) false [].

(** * Properties *)

(** ** Tactics *)

Ltac unfold_machine :=
  unfold step, mount, observerFires, previewChanges, handleLoad,
    handleError, handleLoadImage, handleToggleOverlay, previewEffect, lazyEffect, runSourceEffect,
    sourceEffect, invoke, setProps, setImageSrc, setPreviewUrl,
    setShouldLoad, setIsLoaded, setHasError, setShouldShowOverlay,
    setObserving in *.

Ltac split_cases :=
  repeat match goal with
         | |- context [if ?b then _ else _] => destruct b eqn:?
         | |- context [match ?x with _ => _ end] => destruct x eqn:?
         end; simpl in *.

Ltac step_cases := unfold_machine; simpl; split_cases; simpl in *.

(** ** What each notification leaves alone *)

Lemma step_isLoaded (s : State) (ev : Event) :
  isLoaded s = true -> isLoaded (step s ev) = true.
Proof. intros H; destruct ev; step_cases; auto. Qed.

Lemma run_isLoaded (evs : list Event) : forall s,
  isLoaded s = true -> isLoaded (run s evs) = true.
Proof.
  induction evs as [|ev evs IH]; intros s H; simpl; auto.
  apply IH, step_isLoaded, H.
Qed.

Lemma step_shouldLoad (s : State) (ev : Event) :
  shouldLoad s = true -> shouldLoad (step s ev) = true.
Proof. intros H; destruct ev; step_cases; auto. Qed.

Lemma run_shouldLoad (evs : list Event) : forall s,
  shouldLoad s = true -> shouldLoad (run s evs) = true.
Proof.
  induction evs as [|ev evs IH]; intros s H; simpl; auto.
  apply IH, step_shouldLoad, H.
Qed.

Lemma step_overlay_frame (s : State) (ev : Event) :
  isPointer ev = false -> shouldShowOverlay (step s ev) = shouldShowOverlay s.
Proof. intros H; destruct ev; try discriminate; step_cases; auto. Qed.

Lemma run_overlay_frame (evs : list Event) : forall s,
  forallb (fun ev => negb (isPointer ev)) evs = true ->
  shouldShowOverlay (run s evs) = shouldShowOverlay s.
Proof.
  induction evs as [|ev evs IH]; intros s H; simpl in *; auto.
  apply andb_true_iff in H as [Hev Hevs].
  rewrite IH by assumption.
  apply step_overlay_frame. now apply negb_true_iff.
Qed.

Lemma run_app (s : State) (xs ys : list Event) :
  run s (xs ++ ys) = run (run s xs) ys.
Proof. apply fold_left_app. Qed.

Lemma run_snoc (s : State) (xs : list Event) (ev : Event) :
  run s (xs ++ [ev]) = step (run s xs) ev.
Proof. now rewrite run_app. Qed.

Lemma strictEq_refl (v : ImageSource) : strictEq v v = true.
Proof.
  destruct v; simpl; auto using String.eqb_refl, Nat.eqb_refl.
Qed.

Lemma strictEq_eq (a b : ImageSource) : strictEq a b = true -> a = b.
Proof.
  destruct a, b; simpl; try discriminate; auto; intros H.
  - apply String.eqb_eq in H. congruence.
  - apply Nat.eqb_eq in H. congruence.
Qed.

(** ** Source Resolver *)

Lemma mount_imageSrc (p : ImageProps) (l : Locale) (pv : string) :
  imageSrc (mount p l pv) = resolve l p.
Proof.
  unfold mount, previewEffect, lazyEffect, runSourceEffect, sourceEffect;
    simpl.
  destruct (strictEq (resolve l p) (src p)) eqn:E; simpl.
  - apply strictEq_eq in E. destruct (truthy (src p)); simpl; congruence.
  - reflexivity.
Qed.

(** Outside the guard the effect assigns exactly the resolved value. *)
Lemma sourceEffect_assigns (s : State) :
  strictEq (resolve (local s) (props s)) (imageSrc s) && truthy (imageSrc s)
  = false ->
  sourceEffect s = Some (resolve (local s) (props s)).
Proof. intros H; unfold sourceEffect; now rewrite H. Qed.

Lemma rerender_imageSrc (s : State) (p : ImageProps) (l : Locale) :
  imageSrc (step s (Rerender p l)) = resolve l p.
Proof.
  simpl. unfold runSourceEffect, sourceEffect; simpl.
  destruct (strictEq (resolve l p) (imageSrc s)) eqn:E; simpl.
  - apply strictEq_eq in E.
    destruct (truthy (imageSrc s)), (Bool.eqb (lazy p) (lazy (props s)));
      simpl; congruence.
  - destruct (Bool.eqb (lazy p) (lazy (props s))); reflexivity.
Qed.

(** C4.  At creation and after every re-render the held source is the rewrite
    hook applied to the whole property bag when the hook is a function, and
    the raw source otherwise.  When the value just computed is strictly equal
    to the held [imageSrc] and that value is truthy, the effect returns
    before [setImageSrc]: it makes no assignment, and the re-render leaves
    every state cell as it was. *)
Theorem source_resolver (s : State) (p : ImageProps) (l : Locale)
    (pv : string) :
  let tmpUrl := match replaceImageSrc l with
                | Some f => SrcString (f p)
                | None => src p
                end in
  let s' := step s (Rerender p l) in
  imageSrc (mount p l pv) = tmpUrl
  /\ imageSrc s' = tmpUrl
  /\ (strictEq tmpUrl (imageSrc s) = true -> truthy (imageSrc s) = true ->
      sourceEffect (setProps p l s) = None
      /\ runSourceEffect (setProps p l s) = setProps p l s
      /\ imageSrc s' = imageSrc s /\ isLoaded s' = isLoaded s
      /\ hasError s' = hasError s /\ shouldLoad s' = shouldLoad s
      /\ shouldShowOverlay s' = shouldShowOverlay s
      /\ previewUrl s' = previewUrl s /\ calls s' = calls s)
  /\ (strictEq tmpUrl (imageSrc s) && truthy (imageSrc s) = false ->
      sourceEffect (setProps p l s) = Some tmpUrl).
Proof.
  intros tmpUrl s'.
  change tmpUrl with (resolve l p).
  split; [apply mount_imageSrc|].
  split; [apply rerender_imageSrc|].
  split.
  - intros Heq Htr.
    assert (Hnone : sourceEffect (setProps p l s) = None).
    { unfold sourceEffect; simpl. now rewrite Heq, Htr. }
    assert (Hrun : runSourceEffect (setProps p l s) = setProps p l s).
    { unfold runSourceEffect. now rewrite Hnone. }
    split; [exact Hnone|]. split; [exact Hrun|].
    subst s'; simpl; rewrite Hrun;
      destruct (Bool.eqb (lazy p) (lazy (props s))); repeat split.
  - intros Hg. now apply (sourceEffect_assigns (setProps p l s)).
Qed.

Lemma source_resolver_witness :
  let s := mount (plainProps (SrcString "a.png") None) mirrorHook "" in
  let p := plainProps (SrcString "a.png") (Some "b.png") in
  imageSrc s = SrcString "https://cdn/a.png"
  /\ imageSrc (mount p noHook "") = SrcString "a.png"
  /\ sourceEffect (setProps p mirrorHook s) = None
  /\ imageSrc (step s (Rerender p mirrorHook)) = imageSrc s
  /\ sourceEffect (setProps p noHook s) = Some (SrcString "a.png").
Proof.
  intros s p.
  pose proof (source_resolver s p mirrorHook "") as (_ & _ & Hg & _).
  destruct (Hg eq_refl eq_refl) as (H1 & _ & H2 & _).
  pose proof (source_resolver s p noHook "") as (H3 & _ & _ & H4).
  split; [reflexivity|]. split; [exact H3|]. split; [exact H1|].
  split; [exact H2 | exact (H4 eq_refl)].
Defined.

(** ** Visibility Gate *)

Lemma mount_shouldLoad (p : ImageProps) (l : Locale) (pv : string) :
  shouldLoad (mount p l pv) = negb (lazy p).
Proof. step_cases; auto. Qed.

Lemma mount_observing (p : ImageProps) (l : Locale) (pv : string) :
  observing (mount p l pv) = lazy p.
Proof. step_cases; auto. Qed.

Lemma mount_props (p : ImageProps) (l : Locale) (pv : string) :
  props (mount p l pv) = p.
Proof. step_cases; auto. Qed.

(** While a lazy instance sees neither an intersection nor a change of
    [lazy], it stays registered and keeps waiting. *)
Lemma waiting_invariant (evs : list Event) : forall s,
  lazy (props s) = true -> observing s = true -> shouldLoad s = false ->
  forallb keepsWaiting evs = true ->
  lazy (props (run s evs)) = true /\ observing (run s evs) = true
  /\ shouldLoad (run s evs) = false.
Proof.
  induction evs as [|ev evs IH]; intros s Hl Ho Hs Hall; simpl in *; auto.
  apply andb_true_iff in Hall as [Hev Hevs].
  apply IH; auto; destruct ev; simpl in Hev; try discriminate;
    step_cases; auto; try congruence;
    rewrite Hev, Hl in *; simpl in *; congruence.
Qed.

(** C5.  With [lazy] off an instance is READY as soon as it is created.  With
    [lazy] on it is created PENDING, stays PENDING while nothing intersects
    and [lazy] is kept, and the first intersection notification makes it
    READY.  From READY no sequence of events leads back to PENDING. *)
Theorem visibility_gate (p : ImageProps) (l : Locale) (pv : string)
    (pre post : list Event) :
  forallb keepsWaiting pre = true ->
  let s0 := mount p l pv in
  (lazy p = false -> visibilityState s0 = READY)
  /\ (lazy p = true ->
      visibilityState s0 = PENDING
      /\ visibilityState (run s0 pre) = PENDING
      /\ visibilityState (step (run s0 pre) Intersect) = READY)
  /\ (forall s, visibilityState s = READY ->
      visibilityState (run s post) = READY).
Proof.
  intros Hpre s0. unfold visibilityState.
  split; [|split].
  - intros Hl. subst s0. rewrite mount_shouldLoad, Hl. reflexivity.
  - intros Hl.
    destruct (waiting_invariant pre s0) as (_ & Ho & Hs); subst s0;
      rewrite ?mount_props, ?mount_observing, ?mount_shouldLoad, ?Hl; auto.
    rewrite Hs. simpl. unfold observerFires. rewrite Ho. simpl. auto.
  - intros s Hs. destruct (shouldLoad s) eqn:E; try discriminate.
    now rewrite run_shouldLoad.
Qed.

Lemma visibility_gate_witness :
  let eager := mount (plainProps (SrcString "a.png") None) noHook "" in
  let waiting := mount (withLazy true (plainProps (SrcString "a.png") None))
                       noHook "" in
  visibilityState eager = READY
  /\ visibilityState (run waiting [PreviewUrl "a.png"; MouseEnter]) = PENDING
  /\ visibilityState
       (run waiting [PreviewUrl "a.png"; MouseEnter; Intersect]) = READY
  /\ visibilityState
       (run waiting
            [Intersect; Rerender (plainProps SrcUndefined None) noHook;
             ImgError 1; Intersect]) = READY.
Proof.
  intros eager waiting.
  pose proof (visibility_gate (plainProps (SrcString "a.png") None) noHook ""
                [] [] eq_refl) as (He & _ & _).
  pose proof (visibility_gate
                (withLazy true (plainProps (SrcString "a.png") None)) noHook
                "" [PreviewUrl "a.png"; MouseEnter]
                [Rerender (plainProps SrcUndefined None) noHook; ImgError 1;
                 Intersect] eq_refl) as (_ & Hw & Hone).
  destruct (Hw eq_refl) as (_ & Hp & Hr).
  split; [exact (He eq_refl)|]. split; [exact Hp|]. split; [exact Hr|].
  exact (Hone (step waiting Intersect) eq_refl).
Defined.

(** ** Rendering derivation *)

(** C6.  In every state: the content region is mounted exactly when the state
    is not ERRORED and the gate is READY; the loading indicator exactly when
    the content region is mounted and the state is not LOADED; the error
    region exactly when the state is ERRORED.  The error region and the
    loading indicator are never mounted together. *)
Theorem rendering_derivation (s : State) :
  (contentRegion (render s) <> None
   <-> loadState s <> ERRORED /\ visibilityState s = READY)
  /\ (loadingIndicator (render s) = true
      <-> contentRegion (render s) <> None /\ loadState s <> LOADED)
  /\ (errorRegion (render s) = true <-> loadState s = ERRORED)
  /\ ~ (errorRegion (render s) = true /\ loadingIndicator (render s) = true).
Proof.
  unfold render, contentCondition, loadState, visibilityState; simpl.
  destruct (hasError s), (shouldLoad s), (isLoaded s); simpl;
    repeat split; try congruence; try discriminate;
    try (intros [? ?]; congruence).
Qed.

(** ** Monotone loaded flag *)

(** C10.  Once [isLoaded] holds it holds after every further sequence of
    events, whatever they are, and the loading indicator is not mounted in
    any of the states that follow. *)
Theorem isLoaded_monotone (s : State) (evs : list Event) :
  isLoaded s = true ->
  isLoaded (run s evs) = true
  /\ loadingIndicator (render (run s evs)) = false.
Proof.
  intros H. pose proof (run_isLoaded evs s H) as Hl.
  split; [exact Hl|].
  unfold render; simpl. rewrite Hl. simpl.
  now rewrite andb_false_r, andb_false_r.
Qed.

Lemma isLoaded_monotone_witness :
  let s := run (mount (plainProps (SrcString "a.png") (Some "b.png")) noHook "")
               [ImgLoad 1] in
  let evs := [Rerender (plainProps (SrcString "c.png") None) mirrorHook;
              PreviewUrl "c.png"; ImgError 2; PreviewUrl "d.png"; ImgError 3] in
  isLoaded s = true
  /\ imageSrc (run s evs) <> imageSrc s
  /\ isLoaded (run s evs) = true
  /\ loadingIndicator (render (run s evs)) = false.
Proof.
  intros s evs.
  destruct (isLoaded_monotone s evs eq_refl) as [H1 H2].
  split; [reflexivity|]. split; [discriminate|]. split; assumption.
Defined.

(** ** Overlay Controller *)

Lemma hasMouseEvent_hover (p : ImageProps) :
  hasMouseEvent p = true <-> overlayTrigger p = Some hover.
Proof.
  unfold hasMouseEvent. destruct (overlayTrigger p) as [[|]|];
    split; congruence.
Qed.

Lemma mount_overlay (p : ImageProps) (l : Locale) (pv : string) :
  shouldShowOverlay (mount p l pv) = negb (hasMouseEvent p).
Proof. step_cases; auto. Qed.

(** While the trigger is not [hover], nothing hides the overlay. *)
Lemma unwired_invariant (evs : list Event) : forall s,
  hasMouseEvent (props s) = false -> shouldShowOverlay s = true ->
  forallb keepsUnwired evs = true ->
  hasMouseEvent (props (run s evs)) = false
  /\ shouldShowOverlay (run s evs) = true.
Proof.
  induction evs as [|ev evs IH]; intros s Hm Ho Hall; simpl in *; auto.
  apply andb_true_iff in Hall as [Hev Hevs].
  apply IH; auto; destruct ev; simpl in Hev;
    try apply negb_true_iff in Hev;
    unfold_machine; simpl; rewrite ?Hm; split_cases; auto.
Qed.

(** C7.  With [overlayTrigger] set to [hover] the overlay is hidden until a
    pointer event arrives, pointer-enter shows it, pointer-leave hides it,
    and no other event changes it, so it is shown exactly between an enter
    and the next leave.  With any other trigger, or none, the overlay is
    shown in every state, the pointer handlers are not wired, and pointer
    events leave the state as it is. *)
Theorem overlay_semantics (p : ImageProps) (l : Locale) (pv : string)
    (quiet evs : list Event) :
  forallb (fun ev => negb (isPointer ev)) quiet = true ->
  forallb keepsUnwired evs = true ->
  let s0 := mount p l pv in
  (overlayTrigger p = Some hover ->
   mouseWired (render s0) = true
   /\ shouldShowOverlay (run s0 quiet) = false
   /\ (forall s, hasMouseEvent (props s) = true ->
       shouldShowOverlay (step s MouseEnter) = true
       /\ shouldShowOverlay (step s MouseLeave) = false)
   /\ (forall s, shouldShowOverlay (run s quiet) = shouldShowOverlay s))
  /\ (overlayTrigger p <> Some hover ->
      let s := run s0 evs in
      shouldShowOverlay s = true
      /\ mouseWired (render s) = false
      /\ overlayHidden (render s) <> Some true
      /\ step s MouseEnter = s
      /\ step s MouseLeave = s).
Proof.
  intros Hquiet Hevs s0. split.
  - intros Hh. apply hasMouseEvent_hover in Hh.
    split; [|split; [|split]].
    + subst s0. simpl. now rewrite mount_props.
    + rewrite run_overlay_frame by assumption.
      subst s0. now rewrite mount_overlay, Hh.
    + intros s Hs. simpl. rewrite Hs. split; reflexivity.
    + intros s. now apply run_overlay_frame.
  - intros Hn s.
    assert (Hm : hasMouseEvent p = false).
    { destruct (hasMouseEvent p) eqn:E; auto.
      apply hasMouseEvent_hover in E. contradiction. }
    destruct (unwired_invariant evs s0) as [Hw Ho]; auto.
    { subst s0. now rewrite mount_props. }
    { subst s0. now rewrite mount_overlay, Hm. }
    fold s in Hw, Ho.
    split; [exact Ho|]. split; [exact Hw|].
    split.
    { simpl. unfold renderOverlay. rewrite Ho.
      destruct (overlayContent (props s)); simpl; congruence. }
    simpl. rewrite Hw. split; reflexivity.
Qed.

Lemma overlay_semantics_witness :
  let base := plainProps (SrcString "a.png") None in
  let h := mount (withOverlay (Some hover) base) noHook "" in
  let a := mount (withOverlay (Some always) base) noHook "" in
  shouldShowOverlay (run h [PreviewUrl "a.png"; ImgLoad 1]) = false
  /\ shouldShowOverlay (step h MouseEnter) = true
  /\ shouldShowOverlay
       (run (step h MouseEnter) [PreviewUrl "a.png"; ImgLoad 1]) = true
  /\ shouldShowOverlay (step (step h MouseEnter) MouseLeave) = false
  /\ shouldShowOverlay (run a [MouseEnter; ImgLoad 1; MouseLeave]) = true
  /\ mouseWired (render a) = false.
Proof.
  intros base h a.
  pose proof (overlay_semantics (withOverlay (Some hover) base) noHook ""
                [PreviewUrl "a.png"; ImgLoad 1] [] eq_refl eq_refl)
    as [Hh _].
  destruct (Hh eq_refl) as (_ & H0 & Htoggle & Hframe).
  pose proof (overlay_semantics (withOverlay (Some always) base) noHook ""
                [] [MouseEnter; ImgLoad 1; MouseLeave] eq_refl eq_refl)
    as [_ Ha].
  assert (Hne : overlayTrigger (withOverlay (Some always) base) <> Some hover)
    by discriminate.
  destruct (Ha Hne) as (Hshown & _).
  pose proof (overlay_semantics (withOverlay (Some always) base) noHook ""
                [] [] eq_refl eq_refl) as [_ Ha0].
  destruct (Ha0 Hne) as (_ & Hwired & _).
  split; [exact H0|].
  split; [exact (proj1 (Htoggle h eq_refl))|].
  split; [rewrite Hframe; exact (proj1 (Htoggle h eq_refl))|].
  split; [exact (proj2 (Htoggle (step h MouseEnter) eq_refl))|].
  split; [exact Hshown | exact Hwired].
Defined.

(** ** Multi-source rendering *)

Lemma srcsetMode_spec (p : ImageProps) :
  srcsetMode p = true <-> exists e es, srcset p = Some (e :: es).
Proof.
  unfold srcsetMode. destruct (srcset p) as [[|e es]|]; split;
    try discriminate; eauto; intros (e' & es' & H); discriminate.
Qed.

(** The source-set mode drops the plain entry when [src] is missing: the
    picture of an instance given only a mapping holds the mapping's entry
    and no image entry. *)
Lemma srcset_without_src_has_no_img :
  let p := withSrcset [("image/webp", "a.webp")] (plainProps SrcUndefined None) in
  let s := mount p noHook "" in
  srcsetMode p = true
  /\ contentRegion (render s)
     = Some (Picture [SourceEntry "image/webp" "a.webp"])
  /\ ~ (exists cs u,
          contentRegion (render s) = Some (Picture (cs ++ [ImgEntry u]))).
Proof.
  intros p s. split; [reflexivity|]. split; [reflexivity|].
  intros (cs & u & H). vm_compute in H.
  injection H as H.
  destruct cs as [|c [|c' cs]]; simpl in H; discriminate.
Qed.

(** C8, as the code has it.  Where the content region is mounted, it is a
    picture exactly when the [srcset] mapping is present and has an entry.
    The picture lists one source entry per pair of the mapping, in the
    mapping's order, and after them the plain image entry when [src] is
    truthy; with a falsy or missing [src] the source entries stand alone. *)
Theorem srcset_render_plan (s : State) :
  contentCondition s = true ->
  ((exists cs, contentRegion (render s) = Some (Picture cs))
   <-> (exists e es, srcset (props s) = Some (e :: es)))
  /\ (forall entries, srcset (props s) = Some entries -> entries <> [] ->
      contentRegion (render s)
      = Some (Picture
                (map (fun tu => SourceEntry (fst tu) (snd tu)) entries
                 ++ (if truthy (src (props s))
                     then [ImgEntry (renderImage s)]
                     else []))))
  /\ (forall entries, srcset (props s) = Some entries -> entries <> [] ->
      truthy (src (props s)) = true ->
      contentRegion (render s)
      = Some (Picture
                (map (fun tu => SourceEntry (fst tu) (snd tu)) entries
                 ++ [ImgEntry (renderImage s)])))
  /\ (srcsetMode (props s) = false ->
      contentRegion (render s) = Some (Img (renderImage s))).
Proof.
  intros Hc. unfold render, srcsetMode; simpl. rewrite Hc.
  destruct (srcset (props s)) as [[|e es]|] eqn:Hs.
  - split; [split; [intros [cs H] | intros (e & es & H)]; discriminate|].
    split; [intros entries H Hne; congruence|].
    split; [intros entries H Hne; congruence | reflexivity].
  - split; [split; eauto|].
    split; [intros entries H _; injection H as <-; reflexivity|].
    split; [|discriminate].
    intros entries H _ Ht; injection H as <-.
    unfold renderImageSrcset. now rewrite Ht.
  - split; [split; [intros [cs H] | intros (e & es & H)]; discriminate|].
    split; [intros entries H; discriminate|].
    split; [intros entries H; discriminate | reflexivity].
Qed.

Lemma srcset_render_plan_witness :
  let m := [("image/webp", "a.webp"); ("image/png", "a.png")] in
  let s := mount (withSrcset m (plainProps (SrcString "a.jpg") None))
                 noHook "" in
  contentRegion (render s)
  = Some (Picture [SourceEntry "image/webp" "a.webp";
                   SourceEntry "image/png" "a.png";
                   ImgEntry "a.jpg"]).
Proof.
  intros m s.
  destruct (srcset_render_plan s eq_refl) as (_ & _ & H & _).
  assert (Hne : m <> []) by discriminate.
  exact (H m eq_refl Hne eq_refl).
Defined.

(** ** Source changes and the load flags *)




(** ** Error-clear rule *)

(** An instance that loaded one source and then failed on the next holds both
    flags.  When the preview URL then changes to a non-empty value the error
    flag is cleared, and the state that results is LOADED, not NOT_STARTED. *)
Lemma preview_clear_after_load_is_not_fresh :
  let pA := plainProps (SrcString "a.png") None in
  let pC := plainProps (SrcString "c.png") None in
  let pD := plainProps (SrcString "d.png") None in
  let s := run (mount pA noHook "")
               [PreviewUrl "a.png"; ImgLoad 1; Rerender pC noHook;
                PreviewUrl "c.png"; ImgError 2; Rerender pD noHook] in
  hasError s = true
  /\ loadState s = ERRORED
  /\ previewUrl s <> "d.png"
  /\ truthyString "d.png" = true
  /\ hasError (step s (PreviewUrl "d.png")) = false
  /\ loadState (step s (PreviewUrl "d.png")) <> NOT_STARTED.
Proof.
  repeat split; discriminate.
Qed.

(** ** Fallback substitution *)

Lemma mount_noHook (p : ImageProps) (l : Locale) (pv : string) :
  replaceImageSrc l = None ->
  mount p l pv
  = mkState p l (src p) pv (negb (lazy p)) false false
            (negb (hasMouseEvent p)) (lazy p) [].
Proof.
  intros Hl. unfold mount, runSourceEffect, sourceEffect, resolve; simpl.
  rewrite Hl, strictEq_refl; simpl.
  destruct (truthy (src p)); reflexivity.
Qed.

Lemma sources_hold_no_img (entries : list (string * string)) :
  existsb (fun c => match c with ImgEntry _ => true | _ => false end)
          (map (fun tu => SourceEntry (fst tu) (snd tu)) entries) = false.
Proof. induction entries as [|e es IH]; simpl; auto. Qed.

(** An [<img>] is mounted when the content region is, except in source-set
    mode with a falsy [src]. *)
Lemma imgMounted_spec (s : State) :
  imgMounted s
  = contentCondition s
    && (negb (srcsetMode (props s)) || truthy (src (props s))).
Proof.
  unfold imgMounted, render, srcsetMode; simpl.
  destruct (contentCondition s); simpl; auto.
  destruct (srcset (props s)) as [[|e es]|]; simpl; auto.
  unfold renderImageSrcset. rewrite existsb_app, sources_hold_no_img.
  destruct (truthy (src (props s))); reflexivity.
Qed.

(** The committed effect of a failure notification when a fallback is
    configured: the fallback is the source, the error flag is down. *)
Lemma step_error_fallback (s : State) (B : string) (e : nat) :
  imgMounted s = true ->
  fallback (props s) = Some B -> truthyString B = true ->
  step s (ImgError e)
  = invoke (onError (props s)) (CbError e)
      (setHasError false (setImageSrc (SrcString B) (setHasError true s))).
Proof.
  intros Hm Hf Ht. simpl. rewrite Hm. unfold handleError.
  now rewrite Hf, Ht.
Qed.

(** Without a fallback the error flag stays up. *)
Lemma step_error_plain (s : State) (e : nat) :
  imgMounted s = true -> fallback (props s) = None ->
  step s (ImgError e)
  = invoke (onError (props s)) (CbError e) (setHasError true s).
Proof.
  intros Hm Hf. simpl. rewrite Hm. unfold handleError. now rewrite Hf.
Qed.

(** One failure notification, one [onError] call. *)
Lemma step_error_calls (s : State) (e : nat) :
  imgMounted s = true -> onError (props s) = true ->
  calls (step s (ImgError e)) = (calls s ++ [CbError e])%list.
Proof.
  intros Hm Ho. simpl. rewrite Hm. unfold handleError, invoke.
  rewrite Ho. simpl.
  destruct (fallback (props s)) as [fb|]; [destruct (truthyString fb)|];
    reflexivity.
Qed.

Lemma setPreviewUrl_same (s : State) : setPreviewUrl (previewUrl s) s = s.
Proof. destruct s; reflexivity. Qed.

(** While the error flag is down, preview notifications change the preview
    URL and nothing else. *)
Lemma preview_only (evs : list Event) : forall s,
  forallb isPreview evs = true -> hasError s = false ->
  exists u, run s evs = setPreviewUrl u s.
Proof.
  induction evs as [|ev evs IH]; intros s Hall He; simpl in *.
  - exists (previewUrl s). symmetry. apply setPreviewUrl_same.
  - apply andb_true_iff in Hall as [Hev Hevs].
    destruct ev; try discriminate. simpl. unfold previewChanges.
    destruct (String.eqb u (previewUrl s)); [now apply IH|].
    unfold previewEffect; simpl. rewrite He; simpl.
    destruct (IH (setPreviewUrl u s) Hevs He) as [u' Hu'].
    exists u'. rewrite Hu'. reflexivity.
Qed.

(** A failure notification with a fallback configured, followed by preview
    notifications: the fallback is the source, the flags and the gate are as
    they were, [onError] ran once, and the [<img>] is still mounted. *)
Lemma fallback_round (s : State) (B : string) (e : nat) (pvs : list Event) :
  imgMounted s = true ->
  fallback (props s) = Some B -> truthyString B = true ->
  onError (props s) = true ->
  forallb isPreview pvs = true ->
  exists u,
    run s (ImgError e :: pvs)
    = mkState (props s) (local s) (SrcString B) u true (isLoaded s) false
              (shouldShowOverlay s) (observing s) (calls s ++ [CbError e])
    /\ imgMounted (run s (ImgError e :: pvs)) = true.
Proof.
  intros Hm Hf Ht Ho Hall.
  assert (Hc : hasError s = false /\ shouldLoad s = true).
  { rewrite imgMounted_spec in Hm. unfold contentCondition in Hm.
    destruct (hasError s), (shouldLoad s); simpl in Hm;
      try discriminate; auto. }
  destruct Hc as [He Hs].
  change (run s (ImgError e :: pvs)) with (run (step s (ImgError e)) pvs).
  rewrite (step_error_fallback s B e Hm Hf Ht), Ho.
  unfold invoke, setHasError, setImageSrc; simpl.
  match goal with
  | |- context [run ?s1 pvs] =>
      destruct (preview_only pvs s1 Hall eq_refl) as [u Hu]; rewrite Hu
  end.
  exists u. unfold setPreviewUrl; simpl. rewrite Hs. split; [reflexivity|].
  rewrite imgMounted_spec in *. unfold contentCondition in *; simpl.
  now rewrite He, Hs in Hm.
Qed.

(** With both sources failing, the instance ends with the fallback as its
    source and the error flag down: neither ERRORED nor showing the error
    region, although [onError] ran twice. *)
Lemma failed_fallback_is_not_errored :
  let p := plainProps (SrcString "a.png") (Some "b.png") in
  let s := run (mount p noHook "")
               [PreviewUrl "a.png"; ImgError 1; PreviewUrl "b.png";
                ImgError 2] in
  imageSrc s = SrcString "b.png"
  /\ onErrorCount s = 2
  /\ hasError s = false
  /\ errorRegion (render s) = false
  /\ loadState s <> ERRORED.
Proof.
  repeat split; discriminate.
Qed.

(** C2, as the code has it.  With source A and fallback B both failing, after
    the failure notification for A and then the one for B the source is B,
    [onError] has run exactly twice, once per notification, and the error
    flag is down: the state is NOT_STARTED with the loading indicator
    mounted and no error region.  A further failure notification changes
    neither the source nor the flags nor the mounted content, so nothing is
    substituted or requested again. *)
Theorem fallback_failure_settles (p : ImageProps) (l : Locale) (pv : string)
    (A B : string) (e1 e2 : nat) (pvs1 pvs2 : list Event) :
  src p = SrcString A -> truthyString A = true ->
  fallback p = Some B -> truthyString B = true ->
  replaceImageSrc l = None -> lazy p = false -> onError p = true ->
  forallb isPreview pvs1 = true -> forallb isPreview pvs2 = true ->
  let s := run (mount p l pv) (ImgError e1 :: pvs1 ++ ImgError e2 :: pvs2) in
  imageSrc s = SrcString B
  /\ calls s = [CbError e1; CbError e2]
  /\ onErrorCount s = 2
  /\ hasError s = false
  /\ loadState s = NOT_STARTED
  /\ errorRegion (render s) = false
  /\ loadingIndicator (render s) = true
  /\ (forall e, let s' := step s (ImgError e) in
      imageSrc s' = imageSrc s
      /\ hasError s' = hasError s
      /\ isLoaded s' = isLoaded s
      /\ contentRegion (render s') = contentRegion (render s)).
Proof.
  intros Hsrc HA Hfb HB Hl Hlazy Ho H1 H2 s.
  set (s0 := mount p l pv) in *.
  assert (Hs0 : s0 = mkState p l (SrcString A) pv true false false
                             (negb (hasMouseEvent p)) false []).
  { subst s0. rewrite mount_noHook by assumption.
    now rewrite Hsrc, Hlazy. }
  assert (Hm0 : imgMounted s0 = true).
  { rewrite imgMounted_spec, Hs0. unfold contentCondition; simpl.
    rewrite Hsrc; simpl. rewrite HA. apply orb_true_r. }
  destruct (fallback_round s0 B e1 pvs1) as (u1 & Hr1 & Hm1); auto;
    try (rewrite Hs0; simpl; assumption).
  assert (Hsplit : s = run (run s0 (ImgError e1 :: pvs1))
                           (ImgError e2 :: pvs2)).
  { subst s. now rewrite app_comm_cons, run_app. }
  set (s1 := run s0 (ImgError e1 :: pvs1)) in *.
  assert (Hp1 : props s1 = p) by (rewrite Hr1, Hs0; reflexivity).
  destruct (fallback_round s1 B e2 pvs2) as (u2 & Hr2 & Hm2); auto;
    try (rewrite Hp1; assumption).
  rewrite <- Hsplit in Hr2, Hm2.
  assert (Hs : s = mkState p l (SrcString B) u2 true false false
                           (negb (hasMouseEvent p)) false
                           [CbError e1; CbError e2]).
  { rewrite Hr2, Hr1, Hs0. reflexivity. }
  clearbody s. clear Hsplit Hr2.
  split; [now rewrite Hs|]. split; [now rewrite Hs|].
  split; [now rewrite Hs|]. split; [now rewrite Hs|].
  split; [now rewrite Hs|]. split; [now rewrite Hs|].
  split; [now rewrite Hs|].
  intros e s'. subst s'.
  rewrite (step_error_fallback s B e Hm2);
    try assumption; try (rewrite Hs; simpl; assumption).
  rewrite Hs; simpl. rewrite Ho. simpl. repeat split.
Qed.

Lemma fallback_failure_settles_witness :
  let p := plainProps (SrcString "a.png") (Some "b.png") in
  let s := run (mount p noHook "")
               [ImgError 1; PreviewUrl "b.png"; ImgError 2] in
  imageSrc s = SrcString "b.png"
  /\ calls s = [CbError 1; CbError 2]
  /\ loadState s = NOT_STARTED
  /\ imageSrc (step s (ImgError 3)) = SrcString "b.png".
Proof.
  intros p s.
  destruct (fallback_failure_settles p noHook "" "a.png" "b.png" 1 2
              [PreviewUrl "b.png"] [] eq_refl eq_refl eq_refl eq_refl
              eq_refl eq_refl eq_refl eq_refl eq_refl)
    as (H1 & H2 & _ & _ & H3 & _ & _ & H4).
  split; [exact H1|]. split; [exact H2|]. split; [exact H3|].
  destruct (H4 3) as [H5 _]. exact (eq_trans H5 H1).
Defined.

(** C3.  With source A failing and fallback B loading: the instance starts
    NOT_STARTED on A; the failure notification raises the error flag on A and
    in the same step substitutes B and lowers the flag, which commits
    NOT_STARTED on B after one [onError] call; the load notification then
    gives LOADED on B after one [onLoad] call.  No committed state mounts the
    error region, and [onError] has run exactly once. *)
Theorem fallback_success (p : ImageProps) (l : Locale) (pv : string)
    (A B : string) (e1 e2 : nat) (pvs : list Event) :
  src p = SrcString A -> truthyString A = true ->
  fallback p = Some B -> truthyString B = true ->
  replaceImageSrc l = None -> lazy p = false ->
  onError p = true -> onLoad p = true ->
  forallb isPreview pvs = true ->
  let s0 := mount p l pv in
  let s1 := run s0 (ImgError e1 :: pvs) in
  let s2 := step s1 (ImgLoad e2) in
  (loadState s0 = NOT_STARTED /\ imageSrc s0 = SrcString A /\ calls s0 = [])
  /\ (loadState (setHasError true s0) = ERRORED
      /\ imageSrc (setHasError true s0) = SrcString A)
  /\ step s0 (ImgError e1)
     = invoke true (CbError e1)
         (setHasError false
            (setImageSrc (SrcString B) (setHasError true s0)))
  /\ (loadState s1 = NOT_STARTED /\ imageSrc s1 = SrcString B
      /\ calls s1 = [CbError e1])
  /\ (loadState s2 = LOADED /\ imageSrc s2 = SrcString B
      /\ calls s2 = [CbError e1; CbLoad e2])
  /\ onErrorCount s2 = 1
  /\ (errorRegion (render s0) = false /\ errorRegion (render s1) = false
      /\ errorRegion (render s2) = false).
Proof.
  intros Hsrc HA Hfb HB Hl Hlazy Ho Hon Hpv s0 s1 s2.
  assert (Hs0 : s0 = mkState p l (SrcString A) pv true false false
                             (negb (hasMouseEvent p)) false []).
  { subst s0. rewrite mount_noHook by assumption.
    now rewrite Hsrc, Hlazy. }
  assert (Hm0 : imgMounted s0 = true).
  { rewrite imgMounted_spec, Hs0. unfold contentCondition; simpl.
    rewrite Hsrc; simpl. rewrite HA. apply orb_true_r. }
  assert (Hp0 : props s0 = p) by now rewrite Hs0.
  destruct (fallback_round s0 B e1 pvs) as (u1 & Hr1 & Hm1); auto;
    try (rewrite Hp0; assumption).
  fold s1 in Hr1, Hm1.
  assert (Hs1 : s1 = mkState p l (SrcString B) u1 true false false
                             (negb (hasMouseEvent p)) false [CbError e1]).
  { rewrite Hr1, Hs0. reflexivity. }
  assert (Hs2 : s2 = mkState p l (SrcString B) u1 true true false
                             (negb (hasMouseEvent p)) false
                             [CbError e1; CbLoad e2]).
  { subst s2. simpl. rewrite Hm1. unfold handleLoad.
    rewrite Hs1; simpl. rewrite Hon. reflexivity. }
  split; [now rewrite Hs0|].
  split; [now rewrite Hs0|].
  split.
  { rewrite (step_error_fallback s0 B e1 Hm0); try assumption;
      try (rewrite Hp0; assumption).
    now rewrite Hp0, Ho. }
  split; [now rewrite Hs1|].
  split; [now rewrite Hs2|].
  split; [now rewrite Hs2|].
  now rewrite Hs0, Hs1, Hs2.
Qed.

Lemma fallback_success_witness :
  let p := plainProps (SrcString "a.png") (Some "b.png") in
  let s0 := mount p noHook "" in
  let s1 := run s0 [ImgError 1; PreviewUrl "b.png"] in
  let s2 := step s1 (ImgLoad 2) in
  loadState s1 = NOT_STARTED
  /\ loadState s2 = LOADED
  /\ imageSrc s2 = SrcString "b.png"
  /\ calls s2 = [CbError 1; CbLoad 2]
  /\ errorRegion (render s1) = false.
Proof.
  intros p s0 s1 s2.
  destruct (fallback_success p noHook "" "a.png" "b.png" 1 2
              [PreviewUrl "b.png"] eq_refl eq_refl eq_refl eq_refl eq_refl
              eq_refl eq_refl eq_refl eq_refl)
    as (_ & _ & _ & (H1 & _) & (H2 & H3 & H4) & _ & (_ & H5 & _)).
  split; [exact H1|]. split; [exact H2|]. split; [exact H3|].
  split; [exact H4 | exact H5].
Defined.

(** * Further properties of the component *)

(** ** Frames *)

Lemma step_config (s : State) (ev : Event) :
  isRerender ev = false ->
  props (step s ev) = props s /\ local (step s ev) = local s.
Proof. intros H; destruct ev; try discriminate; step_cases; auto. Qed.

Lemma rerender_config (s : State) (p : ImageProps) (l : Locale) :
  props (step s (Rerender p l)) = p /\ local (step s (Rerender p l)) = l.
Proof. step_cases; auto. Qed.

Lemma not_ready_no_img (s : State) :
  shouldLoad s = false -> imgMounted s = false.
Proof.
  intros H. rewrite imgMounted_spec. unfold contentCondition.
  rewrite H. now rewrite orb_true_r.
Qed.

Lemma errored_no_img (s : State) : hasError s = true -> imgMounted s = false.
Proof.
  intros H. rewrite imgMounted_spec. unfold contentCondition.
  now rewrite H.
Qed.

(** ** Nothing happens before the gate opens *)

Lemma step_before_ready (s : State) (ev : Event) :
  (shouldLoad s = false ->
   isLoaded s = false /\ hasError s = false /\ calls s = []) ->
  shouldLoad (step s ev) = false ->
  isLoaded (step s ev) = false /\ hasError (step s ev) = false
  /\ calls (step s ev) = [].
Proof.
  intros Hinv Hafter.
  destruct (shouldLoad s) eqn:Hs.
  { rewrite step_shouldLoad in Hafter by assumption. discriminate. }
  destruct (Hinv eq_refl) as (Hl & He & Hc).
  pose proof (not_ready_no_img s Hs) as Hm.
  destruct ev; simpl in *; rewrite ?Hm; auto;
    unfold runSourceEffect, lazyEffect, observerFires, handleToggleOverlay,
      previewChanges, previewEffect in *;
    try rewrite He; split_cases; auto; try discriminate.
Qed.

Lemma run_before_ready (evs : list Event) : forall s,
  (shouldLoad s = false ->
   isLoaded s = false /\ hasError s = false /\ calls s = []) ->
  shouldLoad (run s evs) = false ->
  isLoaded (run s evs) = false /\ hasError (run s evs) = false
  /\ calls (run s evs) = [].
Proof.
  induction evs as [|ev evs IH]; intros s Hinv Hafter; simpl in *; auto.
  apply IH; auto. intros H. now apply step_before_ready.
Qed.

Lemma mount_flags (p : ImageProps) (l : Locale) (pv : string) :
  isLoaded (mount p l pv) = false /\ hasError (mount p l pv) = false
  /\ calls (mount p l pv) = [].
Proof. step_cases; auto. Qed.

(** X1.  In every state an instance can reach while its gate is still closed
    ([shouldLoad] false), no notification has been processed: neither flag is
    set, no callback has run, and the plan mounts neither the content region
    nor the loading indicator nor the error region. *)
Theorem nothing_before_ready (p : ImageProps) (l : Locale) (pv : string)
    (evs : list Event) :
  shouldLoad (run (mount p l pv) evs) = false ->
  let s := run (mount p l pv) evs in
  isLoaded s = false /\ hasError s = false /\ calls s = []
  /\ contentRegion (render s) = None
  /\ loadingIndicator (render s) = false
  /\ errorRegion (render s) = false
  /\ (forall e, step s (ImgLoad e) = s /\ step s (ImgError e) = s).
Proof.
  intros Hs s.
  destruct (run_before_ready evs (mount p l pv)) as (Hl & He & Hc); auto.
  { intros _. apply mount_flags. }
  fold s in Hl, He, Hc, Hs.
  pose proof (not_ready_no_img s Hs) as Hm.
  repeat (split; [assumption|]).
  unfold render, contentCondition; simpl. rewrite Hs, He, ?orb_true_r; simpl.
  rewrite Hm. repeat split.
Qed.

Lemma nothing_before_ready_witness :
  let p := withLazy true (plainProps (SrcString "a.png") (Some "b.png")) in
  let s := run (mount p noHook "")
               [PreviewUrl "a.png"; ImgError 1; ImgLoad 2; MouseEnter;
                Rerender p mirrorHook] in
  shouldLoad s = false /\ calls s = []
  /\ contentRegion (render s) = None /\ hasError s = false.
Proof.
  intros p s.
  destruct (nothing_before_ready p noHook ""
              [PreviewUrl "a.png"; ImgError 1; ImgLoad 2; MouseEnter;
               Rerender p mirrorHook] eq_refl)
    as (_ & He & Hc & Hr & _).
  split; [reflexivity|]. split; [exact Hc|]. split; [exact Hr | exact He].
Defined.

(** ** The error flag *)

(** X2.  Once the error flag is up, exactly one kind of notification lowers
    it: a preview URL that differs from the held one and is not empty.  A
    re-render, an intersection, pointer events, an unchanged or empty preview
    URL, and image notifications (there is no [<img>] to send them) all
    leave it up. *)
Theorem error_cleared_only_by_preview (s : State) (ev : Event) :
  hasError s = true ->
  (hasError (step s ev) = false
   <-> exists u, ev = PreviewUrl u /\ String.eqb u (previewUrl s) = false
                 /\ truthyString u = true).
Proof.
  intros He. pose proof (errored_no_img s He) as Hm. split.
  - destruct ev; simpl; rewrite ?Hm;
      unfold runSourceEffect, lazyEffect, observerFires, handleToggleOverlay,
        previewChanges, previewEffect;
      split_cases; intros H; try congruence.
    exists u. rewrite He in *. simpl in *. auto.
  - intros (u & -> & Hne & Ht). simpl.
    unfold previewChanges, previewEffect. rewrite Hne; simpl.
    now rewrite He, Ht.
Qed.

Lemma error_cleared_only_by_preview_witness :
  let s := run (mount (plainProps (SrcString "a.png") None) noHook "a.png")
               [ImgError 1] in
  hasError s = true
  /\ hasError (step s (PreviewUrl "c.png")) = false
  /\ hasError (step s (PreviewUrl "")) <> false
  /\ hasError (step s (ImgLoad 2)) <> false.
Proof.
  intros s.
  pose proof (error_cleared_only_by_preview s (PreviewUrl "c.png") eq_refl)
    as [_ Hc].
  pose proof (error_cleared_only_by_preview s (PreviewUrl "") eq_refl)
    as [He _].
  pose proof (error_cleared_only_by_preview s (ImgLoad 2) eq_refl)
    as [Hl _].
  split; [reflexivity|].
  split; [apply Hc; exists "c.png"; repeat split|].
  split.
  - intros H. destruct (He H) as (u & Hu & _ & Ht).
    injection Hu as <-. discriminate Ht.
  - intros H. destruct (Hl H) as (u & Hu & _). discriminate Hu.
Defined.

(** X3.  A failure notification without a usable fallback (none, or the
    empty string): the error flag goes up and the source and the loaded flag
    stay; the error region replaces the content region and the loading
    indicator; [onError] runs once if supplied; and with the [<img>] gone,
    later image notifications change nothing. *)
Theorem error_without_fallback (s : State) (e e' : nat) :
  imgMounted s = true ->
  noFallback (props s) = true ->
  let s' := step s (ImgError e) in
  hasError s' = true
  /\ imageSrc s' = imageSrc s
  /\ isLoaded s' = isLoaded s
  /\ calls s' = (calls s ++ callIf (onError (props s)) (CbError e))%list
  /\ contentRegion (render s') = None
  /\ loadingIndicator (render s') = false
  /\ errorRegion (render s') = true
  /\ step s' (ImgLoad e') = s'
  /\ step s' (ImgError e') = s'.
Proof.
  intros Hm Hf s'.
  assert (Hs' : s' = invoke (onError (props s)) (CbError e)
                       (setHasError true s)).
  { subst s'. simpl. rewrite Hm. unfold handleError.
    unfold noFallback in Hf.
    destruct (fallback (props s)) as [fb|]; auto.
    apply negb_true_iff in Hf. now rewrite Hf. }
  assert (He : hasError s' = true).
  { rewrite Hs'. unfold invoke.
    destruct (onError (props s)); reflexivity. }
  pose proof (errored_no_img s' He) as Hm'.
  split; [exact He|].
  split; [rewrite Hs'; unfold invoke; destruct (onError (props s));
          reflexivity|].
  split; [rewrite Hs'; unfold invoke; destruct (onError (props s));
          reflexivity|].
  split.
  { rewrite Hs'. unfold invoke, callIf.
    destruct (onError (props s)); simpl; auto using app_nil_r. }
  unfold render, contentCondition; simpl. rewrite He; simpl.
  rewrite Hm'. repeat split.
Qed.

Lemma error_without_fallback_witness :
  let s := mount (plainProps (SrcString "a.png") (Some "")) noHook "" in
  let s' := step s (ImgError 1) in
  hasError s' = true
  /\ imageSrc s' = SrcString "a.png"
  /\ calls s' = [CbError 1]
  /\ errorRegion (render s') = true
  /\ step s' (ImgLoad 2) = s'.
Proof.
  intros s s'.
  destruct (error_without_fallback s 1 2 eq_refl eq_refl)
    as (H1 & H2 & _ & H3 & _ & _ & H4 & H5 & _).
  split; [exact H1|]. split; [exact H2|]. split; [exact H3|].
  split; [exact H4 | exact H5].
Defined.

(** ** Re-renders *)

Lemma rerender_fixed (r : State) :
  imageSrc r = resolve (local r) (props r) ->
  step r (Rerender (props r) (local r)) = r.
Proof.
  intros Hi. destruct r as [p l i pv sl il he so ob cs]; simpl in *.
  unfold runSourceEffect, sourceEffect, setProps, setImageSrc; simpl.
  subst i. rewrite strictEq_refl, Bool.eqb_reflx; simpl.
  destruct (truthy (resolve l p)); reflexivity.
Qed.

(** X4.  Re-rendering twice with the same property bag and locale is the
    same as re-rendering once: the second pass assigns nothing new, whether
    or not the guard suppresses it, and the flags, the gate and the call log
    are those the first pass left. *)
Theorem rerender_idempotent (s : State) (p : ImageProps) (l : Locale) :
  step (step s (Rerender p l)) (Rerender p l) = step s (Rerender p l).
Proof.
  destruct (rerender_config s p l) as [Hp Hl].
  pose proof (rerender_imageSrc s p l) as Hi.
  set (r := step s (Rerender p l)) in *.
  rewrite <- Hp at 1. rewrite <- Hl at 1.
  apply rerender_fixed. now rewrite Hp, Hl.
Qed.

(** X5.  A fallback substitution does not survive a re-render by the parent:
    the failure notification makes the fallback the source, and the next
    re-render assigns the resolved source again (so the fallback stays only
    if it is the resolved source), with the error flag down and the [<img>]
    mounted for another attempt. *)
Theorem rerender_drops_fallback (s : State) (B : string) (e : nat)
    (p : ImageProps) (l : Locale) :
  imgMounted s = true ->
  fallback (props s) = Some B -> truthyString B = true ->
  srcset p = srcset (props s) -> src p = src (props s) ->
  let s1 := step s (ImgError e) in
  let s2 := step s1 (Rerender p l) in
  imageSrc s1 = SrcString B
  /\ imageSrc s2 = resolve l p
  /\ hasError s2 = false
  /\ isLoaded s2 = isLoaded s
  /\ imgMounted s2 = true.
Proof.
  intros Hm Hf Ht Hset Hsrc s1 s2.
  assert (Hc : hasError s = false /\ shouldLoad s = true).
  { rewrite imgMounted_spec in Hm. unfold contentCondition in Hm.
    destruct (hasError s), (shouldLoad s); simpl in Hm;
      try discriminate; auto. }
  destruct Hc as [He Hs].
  assert (H1 : s1 = invoke (onError (props s)) (CbError e)
                      (setHasError false
                         (setImageSrc (SrcString B) (setHasError true s))))
    by (subst s1; now apply step_error_fallback).
  assert (Hflags : imageSrc s1 = SrcString B /\ hasError s1 = false
                   /\ isLoaded s1 = isLoaded s /\ shouldLoad s1 = true).
  { rewrite H1. unfold invoke. destruct (onError (props s)); simpl; auto. }
  destruct Hflags as (Hi1 & He1 & Hl1 & Hs1).
  destruct (rerender_config s1 p l) as [Hp2 _]. fold s2 in Hp2.
  assert (Hkeep : hasError s2 = hasError s1 /\ isLoaded s2 = isLoaded s1
                  /\ shouldLoad s2 = shouldLoad s1).
  { subst s2. generalize s1. intros r. step_cases; auto. }
  destruct Hkeep as (He2 & Hl2 & Hs2).
  split; [exact Hi1|].
  split; [apply rerender_imageSrc|].
  split; [congruence|]. split; [congruence|].
  rewrite imgMounted_spec in *. unfold contentCondition, srcsetMode in *.
  rewrite He2, Hs2, He1, Hs1, Hp2, Hset, Hsrc.
  now rewrite He, Hs in Hm.
Qed.

Lemma rerender_drops_fallback_witness :
  let p := plainProps (SrcString "a.png") (Some "b.png") in
  let s1 := step (mount p noHook "") (ImgError 1) in
  let s2 := step s1 (Rerender p noHook) in
  imageSrc s1 = SrcString "b.png"
  /\ imageSrc s2 = SrcString "a.png"
  /\ imgMounted s2 = true.
Proof.
  intros p s1 s2.
  destruct (rerender_drops_fallback (mount p noHook "") "b.png" 1 p noHook
              eq_refl eq_refl eq_refl eq_refl eq_refl)
    as (H1 & H2 & _ & _ & H3).
  split; [exact H1|]. split; [exact H2 | exact H3].
Defined.

(** ** The held source *)

Lemma step_source_invariant (s : State) (ev : Event) :
  (imageSrc s = resolve (local s) (props s)
   \/ exists fb, fallback (props s) = Some fb /\ truthyString fb = true
                 /\ imageSrc s = SrcString fb) ->
  imageSrc (step s ev) = resolve (local (step s ev)) (props (step s ev))
  \/ exists fb, fallback (props (step s ev)) = Some fb
                /\ truthyString fb = true
                /\ imageSrc (step s ev) = SrcString fb.
Proof.
  intros Hinv. destruct ev.
  - left. destruct (rerender_config s p l) as [-> ->].
    apply rerender_imageSrc.
  - simpl. unfold observerFires. destruct (observing s); exact Hinv.
  - simpl. destruct (imgMounted s); [|exact Hinv].
    unfold handleLoad, invoke. destruct (onLoad (props s)); exact Hinv.
  - simpl. destruct (imgMounted s); [|exact Hinv].
    unfold handleError, invoke.
    destruct (fallback (props s)) as [fb|] eqn:Hf;
      [destruct (truthyString fb) eqn:Ht|];
      destruct (onError (props s)); simpl;
      try (rewrite Hf; exact Hinv);
      right; exists fb; rewrite Hf; auto.
  - simpl. destruct (hasMouseEvent (props s)); exact Hinv.
  - simpl. destruct (hasMouseEvent (props s)); exact Hinv.
  - simpl. unfold previewChanges, previewEffect.
    destruct (String.eqb u (previewUrl s)); [exact Hinv|]. simpl.
    destruct (hasError s && truthyString u); exact Hinv.
Qed.

(** X6.  The first commit, before its effects run, holds the raw [src], also
    when a rewrite hook is set, and with [lazy] off it already mounts the
    content with that source.  Once the effects of the latest render have
    run, the held source is always one of two values: the source resolved
    from the current properties and locale, or the current non-empty
    fallback. *)
Theorem settled_source_is_resolved_or_fallback (p : ImageProps) (l : Locale)
    (pv : string) (evs : list Event) :
  (imageSrc (firstRender p l pv) = src p
   /\ renderImage (firstRender p l pv)
      = match src p with
        | SrcString a => a
        | _ => pv
        end
   /\ (contentRegion (render (firstRender p l pv)) <> None
       <-> lazy p = false)
   /\ mount p l pv
      = previewEffect (lazyEffect (runSourceEffect (firstRender p l pv)))
   /\ imageSrc (mount p l pv) = resolve l p)
  /\ (let s := run (mount p l pv) evs in
      imageSrc s = resolve (local s) (props s)
      \/ exists fb, fallback (props s) = Some fb /\ truthyString fb = true
                    /\ imageSrc s = SrcString fb).
Proof.
  split.
  - split; [reflexivity|]. split; [reflexivity|].
    split; [|split; [reflexivity | apply mount_imageSrc]].
    unfold render, contentCondition, firstRender; simpl.
    destruct (lazy p); simpl; split; congruence.
  - simpl. pattern evs. apply rev_ind.
    + left. simpl. rewrite mount_imageSrc, mount_props.
      f_equal. step_cases; auto.
    + intros ev evs' IH. rewrite run_snoc. now apply step_source_invariant.
Qed.

(** Under a rewrite hook the first commit asks for the raw source; the
    rewritten one is held only after the effect. *)
Lemma first_commit_precedes_rewrite :
  let p := plainProps (SrcString "a.png") None in
  contentRegion (render (firstRender p mirrorHook "")) = Some (Img "a.png")
  /\ contentRegion (render (mount p mirrorHook ""))
     = Some (Img "https://cdn/a.png").
Proof. split; reflexivity. Qed.

(** ** Callbacks *)

Lemma step_calls (s : State) (ev : Event) :
  exists suffix,
    calls (step s ev) = (calls s ++ suffix)%list
    /\ length suffix <= (if isImgEvent ev then 1 else 0).
Proof.
  destruct ev; simpl;
    try (exists []; rewrite app_nil_r; split; [|simpl; lia];
         unfold_machine; simpl; split_cases; reflexivity).
  - destruct (imgMounted s); [|exists []; rewrite app_nil_r; auto].
    unfold handleLoad, invoke.
    destruct (onLoad (props s)); simpl;
      [exists [CbLoad e] | exists []; rewrite app_nil_r]; auto.
  - destruct (imgMounted s); [|exists []; rewrite app_nil_r; auto].
    unfold handleError, invoke.
    destruct (onError (props s)); simpl;
      [exists [CbError e] | exists []; rewrite app_nil_r];
      (split; [|simpl; lia]);
      destruct (fallback (props s)) as [fb|];
      try destruct (truthyString fb); reflexivity.
Qed.

(** X7.  Callbacks run only in answer to image notifications, at most one
    per notification, and the log is never rewritten: after any sequence of
    events the earlier calls are a prefix of the log, and what was added is
    no longer than the number of load and error notifications in the
    sequence. *)
Theorem callbacks_only_on_img_events (evs : list Event) : forall s,
  exists suffix,
    calls (run s evs) = (calls s ++ suffix)%list
    /\ length suffix <= length (filter isImgEvent evs).
Proof.
  induction evs as [|ev evs IH]; intros s; simpl.
  - exists []. rewrite app_nil_r. auto.
  - destruct (IH (step s ev)) as (suf2 & Hc2 & Hl2).
    destruct (step_calls s ev) as (suf1 & Hc1 & Hl1).
    exists (suf1 ++ suf2)%list. split.
    + now rewrite Hc2, Hc1, app_assoc.
    + rewrite length_app. destruct (isImgEvent ev); simpl; lia.
Qed.

(** X8.  A load notification on a mounted [<img>]: the loaded flag is set,
    the source and the error flag stay, the loading indicator goes and the
    content stays mounted, and [onLoad] runs once if supplied, so the state
    is LOADED. *)
Theorem load_notification (s : State) (e : nat) :
  imgMounted s = true ->
  let s' := step s (ImgLoad e) in
  isLoaded s' = true
  /\ hasError s' = false
  /\ imageSrc s' = imageSrc s
  /\ loadState s' = LOADED
  /\ calls s' = (calls s ++ callIf (onLoad (props s)) (CbLoad e))%list
  /\ loadingIndicator (render s') = false
  /\ contentRegion (render s') = contentRegion (render s)
  /\ imgMounted s' = true.
Proof.
  intros Hm s'.
  assert (Hc : hasError s = false /\ shouldLoad s = true).
  { rewrite imgMounted_spec in Hm. unfold contentCondition in Hm.
    destruct (hasError s), (shouldLoad s); simpl in Hm;
      try discriminate; auto. }
  destruct Hc as [He Hs].
  assert (Hs' : s' = invoke (onLoad (props s)) (CbLoad e)
                       (setIsLoaded true s)).
  { subst s'. simpl. now rewrite Hm. }
  assert (Hm' : imgMounted s' = imgMounted s).
  { rewrite Hs'. unfold imgMounted, render, contentCondition, invoke,
      renderImageSrcset, renderImage.
    destruct (onLoad (props s)); reflexivity. }
  rewrite Hm', Hs'. unfold loadState, render, contentCondition, invoke,
    callIf, renderImageSrcset, renderImage.
  destruct (onLoad (props s)); simpl; rewrite He, Hs, ?app_nil_r; simpl;
    repeat split; auto.
Qed.

Lemma load_notification_witness :
  let s := mount (plainProps (SrcString "a.png") None) noHook "" in
  loadState (step s (ImgLoad 4)) = LOADED
  /\ calls (step s (ImgLoad 4)) = [CbLoad 4]
  /\ loadingIndicator (render (step s (ImgLoad 4))) = false.
Proof.
  intros s.
  destruct (load_notification s 4 eq_refl) as (_ & _ & _ & H1 & H2 & H3 & _).
  split; [exact H1|]. split; [exact H2 | exact H3].
Defined.

(** ** Pointer events *)

(** X9.  A pointer event touches nothing but the overlay flag: properties,
    source, flags, gate and call log are unchanged, the plan mounts the same
    content, loading and error regions, and the overlay is neither mounted
    nor unmounted by it (it is mounted exactly when [overlayContent] is
    given, and only its hidden class follows the flag). *)
Theorem pointer_events_only_toggle_overlay (s : State) (ev : Event) :
  isPointer ev = true ->
  let s' := step s ev in
  props s' = props s /\ imageSrc s' = imageSrc s
  /\ isLoaded s' = isLoaded s /\ hasError s' = hasError s
  /\ shouldLoad s' = shouldLoad s /\ calls s' = calls s
  /\ contentRegion (render s') = contentRegion (render s)
  /\ loadingIndicator (render s') = loadingIndicator (render s)
  /\ errorRegion (render s') = errorRegion (render s)
  /\ overlayHidden (render s')
     = (if overlayContent (props s)
        then Some (negb (shouldShowOverlay s'))
        else None).
Proof.
  intros Hp s'. subst s'.
  destruct ev; try discriminate; simpl;
    destruct (hasMouseEvent (props s)); repeat split.
Qed.

Lemma pointer_events_only_toggle_overlay_witness :
  let p := withOverlay (Some hover) (plainProps (SrcString "a.png") None) in
  let s := step (mount p noHook "") (ImgLoad 1) in
  loadState (step s MouseLeave) = LOADED
  /\ overlayHidden (render (step s MouseEnter)) = Some false
  /\ overlayHidden (render (step s MouseLeave)) = Some true.
Proof.
  intros p s.
  destruct (pointer_events_only_toggle_overlay s MouseEnter eq_refl)
    as (_ & _ & _ & _ & _ & _ & _ & _ & _ & Hin).
  destruct (pointer_events_only_toggle_overlay s MouseLeave eq_refl)
    as (_ & _ & Hl & He & _ & _ & _ & _ & _ & Hout).
  split; [unfold loadState; rewrite He, Hl; reflexivity|].
  split; [exact Hin | exact Hout].
Defined.

(** ** The URL handed to the image element *)

Lemma preview_keeps_source (evs : list Event) : forall s,
  forallb isPreview evs = true -> imageSrc (run s evs) = imageSrc s.
Proof.
  induction evs as [|ev evs IH]; intros s Hall; simpl in *; auto.
  apply andb_true_iff in Hall as [Hev Hevs].
  rewrite IH by assumption.
  destruct ev; try discriminate. step_cases; auto.
Qed.

(** X10.  The preview URL reaches the [<img>] only when the held source is
    not a string.  With a string source the element is handed that string,
    whatever preview URLs arrive; with a [File] or a missing source it is
    handed the preview URL, and follows it when it changes. *)
Theorem img_url_and_preview (s : State) (evs : list Event) (u : string) :
  forallb isPreview evs = true ->
  (forall a, imageSrc s = SrcString a -> renderImage (run s evs) = a)
  /\ ((forall a, imageSrc s <> SrcString a) ->
      renderImage s = previewUrl s
      /\ renderImage (step s (PreviewUrl u)) = u).
Proof.
  intros Hall. split.
  - intros a Ha. unfold renderImage.
    now rewrite (preview_keeps_source evs s Hall), Ha.
  - intros Hn.
    assert (Hi : imageSrc (step s (PreviewUrl u)) = imageSrc s)
      by (apply (preview_keeps_source [PreviewUrl u]); reflexivity).
    unfold renderImage. rewrite Hi.
    destruct (imageSrc s) as [|a|f]; [|now elim (Hn a)|]; split; auto;
      simpl; unfold previewChanges, previewEffect;
      destruct (String.eqb u (previewUrl s)) eqn:E;
      try (apply String.eqb_eq in E; now subst);
      simpl; destruct (hasError s && truthyString u); reflexivity.
Qed.

Lemma img_url_and_preview_witness :
  let f := mount (plainProps (SrcFile 7) None) noHook "" in
  let a := mount (plainProps (SrcString "a.png") None) noHook "" in
  renderImage (step f (PreviewUrl "blob:7")) = "blob:7"
  /\ renderImage (run a [PreviewUrl "x"; PreviewUrl "y"]) = "a.png".
Proof.
  intros f a.
  destruct (img_url_and_preview f [] "blob:7" eq_refl) as [_ Hf].
  destruct (img_url_and_preview a [PreviewUrl "x"; PreviewUrl "y"] ""
              eq_refl) as [Ha _].
  split.
  - apply Hf. intros x Hx. discriminate Hx.
  - apply Ha. reflexivity.
Defined.

(** ** Switching [lazy] off *)

Lemma step_observing_lazy (s : State) (ev : Event) :
  (observing s = true -> lazy (props s) = true) ->
  observing (step s ev) = true -> lazy (props (step s ev)) = true.
Proof.
  intros Hinv. destruct ev; simpl.
  - unfold runSourceEffect, lazyEffect.
    destruct (Bool.eqb (lazy p) (lazy (props s))) eqn:E;
      destruct (sourceEffect (setProps p l s)); simpl; intros Ho; auto;
      apply Bool.eqb_prop in E; rewrite E; auto.
  - unfold observerFires. destruct (observing s) eqn:Ho; simpl;
      [discriminate | intros H; congruence].
  - destruct (imgMounted s); auto.
    unfold handleLoad, invoke. destruct (onLoad (props s)); simpl; auto.
  - destruct (imgMounted s); auto.
    unfold handleError, invoke.
    destruct (fallback (props s)) as [fb|];
      [destruct (truthyString fb)|];
      destruct (onError (props s)); simpl; auto.
  - destruct (hasMouseEvent (props s)); simpl; auto.
  - destruct (hasMouseEvent (props s)); simpl; auto.
  - unfold previewChanges, previewEffect.
    destruct (String.eqb u (previewUrl s)); simpl; auto.
    destruct (hasError s && truthyString u); simpl; auto.
Qed.

Lemma run_observing_lazy (evs : list Event) : forall s,
  (observing s = true -> lazy (props s) = true) ->
  observing (run s evs) = true -> lazy (props (run s evs)) = true.
Proof.
  induction evs as [|ev evs IH]; intros s Hinv; simpl; auto.
  apply IH. now apply step_observing_lazy.
Qed.

Lemma lazy_off_invariant (evs : list Event) : forall s,
  shouldLoad s = false -> observing s = false -> lazy (props s) = false ->
  forallb keepsLazyOff evs = true ->
  shouldLoad (run s evs) = false.
Proof.
  induction evs as [|ev evs IH]; intros s Hs Ho Hl Hall; simpl in *; auto.
  apply andb_true_iff in Hall as [Hev Hevs].
  apply IH; auto; destruct ev; simpl in Hev;
    try apply negb_true_iff in Hev;
    unfold_machine; simpl; rewrite ?Ho, ?Hl, ?Hev; simpl;
    split_cases; auto.
Qed.

(** X11.  The gate is read from [lazy] once, at creation.  If the parent
    switches [lazy] off while the instance is still waiting, the observer is
    deregistered and nothing opens the gate: as long as re-renders keep
    [lazy] off, the instance stays not ready and mounts no content, even
    when the element intersects the viewport. *)
Theorem lazy_switched_off_stays_pending (p0 : ImageProps) (l0 : Locale)
    (pv : string) (pre : list Event) (p : ImageProps) (l : Locale)
    (evs : list Event) :
  shouldLoad (run (mount p0 l0 pv) pre) = false ->
  lazy p = false ->
  forallb keepsLazyOff evs = true ->
  let s := run (run (mount p0 l0 pv) pre) (Rerender p l :: evs) in
  shouldLoad s = false /\ contentRegion (render s) = None.
Proof.
  intros Hs Hl Hall s.
  set (s0 := run (mount p0 l0 pv) pre) in *.
  assert (Hinv : observing s0 = true -> lazy (props s0) = true).
  { apply run_observing_lazy. rewrite mount_observing, mount_props. auto. }
  assert (H1 : shouldLoad (step s0 (Rerender p l)) = false
               /\ observing (step s0 (Rerender p l)) = false
               /\ lazy (props (step s0 (Rerender p l))) = false).
  { destruct (rerender_config s0 p l) as [Hp _]. rewrite Hp.
    split; [|split; [|exact Hl]].
    - step_cases; auto.
    - simpl. unfold runSourceEffect, lazyEffect.
      destruct (Bool.eqb (lazy p) (lazy (props s0))) eqn:E.
      + apply Bool.eqb_prop in E.
        destruct (observing s0) eqn:Ho.
        * specialize (Hinv eq_refl). congruence.
        * destruct (sourceEffect (setProps p l s0)); simpl; exact Ho.
      + destruct (sourceEffect (setProps p l s0)); simpl; exact Hl. }
  destruct H1 as (Hs1 & Ho1 & Hl1).
  assert (Hfin : shouldLoad s = false).
  { subst s. simpl. now apply lazy_off_invariant. }
  split; [exact Hfin|].
  unfold render, contentCondition; simpl.
  now rewrite Hfin, orb_true_r.
Qed.

Lemma lazy_switched_off_stays_pending_witness :
  let p := plainProps (SrcString "a.png") None in
  let s := run (mount (withLazy true p) noHook "")
               [PreviewUrl "a.png"; Rerender p noHook; Intersect;
                Rerender p mirrorHook; Intersect] in
  shouldLoad s = false /\ contentRegion (render s) = None.
Proof.
  intros p s.
  exact (lazy_switched_off_stays_pending (withLazy true p) noHook ""
           [PreviewUrl "a.png"] p noHook
           [Intersect; Rerender p mirrorHook; Intersect]
           eq_refl eq_refl eq_refl).
Defined.

(** ** Loading and error bodies *)

Lemma falsy_string (s : string) : truthyString s = false -> s = "".
Proof.
  unfold truthyString. intros H. apply negb_false_iff in H.
  now apply String.eqb_eq.
Qed.

(** X12.  A status region shows the caller's node exactly when that node is
    truthy.  Otherwise it shows the default column with the region's icon,
    and its text is the localized text when the property was left out, and
    empty when the caller passed the empty string: [''] hides the text and
    keeps the icon. *)
Theorem status_body_cases (icon : StatusIcon) (node : Renderable)
    (localized : string) :
  match statusBody icon node localized with
  | Custom r => r = node /\ truthyNode node = true
  | DefaultBody i t =>
      i = icon /\ truthyNode node = false
      /\ ((node = RText "" /\ t = "") \/ (node = RUndefined /\ t = localized))
  end.
Proof.
  unfold statusBody. destruct (truthyNode node) eqn:Ht; [auto|].
  split; [reflexivity|]. split; [reflexivity|].
  destruct node as [|s|r]; simpl in Ht; try discriminate; auto.
  left. apply falsy_string in Ht. now subst.
Qed.

(** The two status regions are never mounted together, whatever the caller
    passes for them. *)
Lemma status_regions_exclusive (s : State) (loading error : Renderable)
    (loadingText errorText : string) :
  renderLoading s loading loadingText = None
  \/ renderError s error errorText = None.
Proof.
  unfold renderLoading, renderError, render, contentCondition; simpl.
  destruct (hasError s); simpl; auto.
Qed.

(** ** A source-set without a source *)

Lemma step_without_img (s : State) (ev : Event) :
  imgMounted s = false -> isRerender ev = false ->
  isLoaded (step s ev) = isLoaded s /\ calls (step s ev) = calls s.
Proof.
  intros Hm Hr. destruct ev; try discriminate; simpl; rewrite ?Hm; auto;
    unfold observerFires, handleToggleOverlay, previewChanges, previewEffect;
    split_cases; auto.
Qed.

(** X13.  In source-set mode with a falsy [src] the picture has no [<img>],
    so while the properties stay as they are no load or error notification
    can be delivered: the loaded flag and the call log never change, and the
    instance never reaches LOADED if it was not there. *)
Theorem srcset_without_src_never_loads (s : State) (evs : list Event) :
  srcsetMode (props s) = true ->
  truthy (src (props s)) = false ->
  forallb (fun ev => negb (isRerender ev)) evs = true ->
  imgMounted (run s evs) = false
  /\ isLoaded (run s evs) = isLoaded s
  /\ calls (run s evs) = calls s.
Proof.
  revert s. induction evs as [|ev evs IH]; intros s Hm Hsrc Hall;
    simpl in *.
  - split; auto. rewrite imgMounted_spec, Hm, Hsrc. apply andb_false_r.
  - apply andb_true_iff in Hall as [Hev Hevs].
    apply negb_true_iff in Hev.
    destruct (step_config s ev Hev) as [Hp _].
    assert (Hno : imgMounted s = false).
    { rewrite imgMounted_spec, Hm, Hsrc. apply andb_false_r. }
    destruct (step_without_img s ev Hno Hev) as [Hl Hc].
    destruct (IH (step s ev)) as (H1 & H2 & H3); rewrite ?Hp; auto.
    split; [exact H1|]. split; congruence.
Qed.

Lemma srcset_without_src_never_loads_witness :
  let p := withSrcset [("image/webp", "a.webp")]
                      (plainProps SrcUndefined (Some "b.png")) in
  let s := run (mount p noHook "") [ImgLoad 1; ImgError 2; PreviewUrl "x"] in
  isLoaded s = false /\ calls s = []
  /\ loadingIndicator (render s) = true.
Proof.
  intros p s.
  destruct (srcset_without_src_never_loads (mount p noHook "")
              [ImgLoad 1; ImgError 2; PreviewUrl "x"] eq_refl eq_refl
              eq_refl) as (_ & H1 & H2).
  split; [exact H1|]. split; [exact H2 | reflexivity].
Defined.

(** ** Recovery *)

Lemma step_error_noFallback (s : State) (e : nat) :
  imgMounted s = true -> noFallback (props s) = true ->
  step s (ImgError e)
  = invoke (onError (props s)) (CbError e) (setHasError true s).
Proof.
  intros Hm Hf. simpl. rewrite Hm. unfold handleError.
  unfold noFallback in Hf.
  destruct (fallback (props s)) as [fb|]; auto.
  apply negb_true_iff in Hf. now rewrite Hf.
Qed.

Lemma step_preview_clears (s : State) (u : string) :
  hasError s = true -> String.eqb u (previewUrl s) = false ->
  truthyString u = true ->
  step s (PreviewUrl u) = setHasError false (setPreviewUrl u s).
Proof.
  intros He Hu Ht. simpl. unfold previewChanges, previewEffect.
  rewrite Hu. simpl. now rewrite He, Ht.
Qed.

Lemma step_load (s : State) (e : nat) :
  imgMounted s = true ->
  step s (ImgLoad e)
  = invoke (onLoad (props s)) (CbLoad e) (setIsLoaded true s).
Proof. intros Hm. simpl. now rewrite Hm. Qed.

(** X14.  Failure, then a new preview URL, then a load: after a failure
    without a usable fallback the error region is mounted; a changed,
    non-empty preview URL lowers the flag and mounts the [<img>] again; the
    load notification that follows is accepted, and the instance ends LOADED
    on its original source with one [onError] and one [onLoad] call, each if
    supplied. *)
Theorem error_preview_load (s : State) (e1 e2 : nat) (u : string) :
  imgMounted s = true ->
  noFallback (props s) = true ->
  String.eqb u (previewUrl s) = false ->
  truthyString u = true ->
  let s' := run s [ImgError e1; PreviewUrl u; ImgLoad e2] in
  errorRegion (render (step s (ImgError e1))) = true
  /\ imgMounted (run s [ImgError e1; PreviewUrl u]) = true
  /\ hasError s' = false
  /\ isLoaded s' = true
  /\ loadState s' = LOADED
  /\ imageSrc s' = imageSrc s
  /\ calls s' = (calls s ++ callIf (onError (props s)) (CbError e1)
                  ++ callIf (onLoad (props s)) (CbLoad e2))%list.
Proof.
  intros Hm Hf Hu Ht s'.
  assert (Hc : shouldLoad s = true
               /\ negb (srcsetMode (props s)) || truthy (src (props s))
                  = true).
  { rewrite imgMounted_spec in Hm. unfold contentCondition in Hm.
    apply andb_true_iff in Hm as [Hc Hside]. split; [|exact Hside].
    destruct (hasError s), (shouldLoad s); simpl in Hc;
      try discriminate; auto. }
  destruct Hc as [Hs Hside].
  pose proof (step_error_noFallback s e1 Hm Hf) as H1.
  change s' with (step (step (step s (ImgError e1)) (PreviewUrl u))
                       (ImgLoad e2)).
  change (run s [ImgError e1; PreviewUrl u])
    with (step (step s (ImgError e1)) (PreviewUrl u)).
  clear s'. set (s1 := step s (ImgError e1)) in *.
  assert (F1 : hasError s1 = true /\ previewUrl s1 = previewUrl s
               /\ props s1 = props s /\ shouldLoad s1 = true
               /\ imageSrc s1 = imageSrc s
               /\ calls s1 = (calls s
                    ++ callIf (onError (props s)) (CbError e1))%list).
  { rewrite H1. unfold invoke, callIf.
    destruct (onError (props s)); simpl; rewrite ?app_nil_r; auto 10. }
  destruct F1 as (He1 & Hpv1 & Hp1 & Hs1 & Hi1 & Hc1).
  rewrite <- Hpv1 in Hu.
  pose proof (step_preview_clears s1 u He1 Hu Ht) as H2.
  set (s2 := step s1 (PreviewUrl u)) in *.
  assert (Hm2 : imgMounted s2 = true).
  { rewrite imgMounted_spec, H2. unfold contentCondition; simpl.
    now rewrite Hs1, Hp1, Hside. }
  pose proof (step_load s2 e2 Hm2) as H3.
  set (s3 := step s2 (ImgLoad e2)) in *.
  assert (Hp2 : props s2 = props s) by (rewrite H2; simpl; exact Hp1).
  assert (F3 : hasError s3 = false /\ isLoaded s3 = true
               /\ imageSrc s3 = imageSrc s
               /\ calls s3 = (calls s1
                    ++ callIf (onLoad (props s)) (CbLoad e2))%list).
  { rewrite H3, Hp2. unfold invoke, callIf.
    destruct (onLoad (props s)); subst s2; rewrite H2; simpl;
      rewrite ?app_nil_r; auto. }
  destruct F3 as (He3 & Hl3 & Hi3 & Hc3).
  split; [exact He1|]. split; [exact Hm2|].
  split; [exact He3|]. split; [exact Hl3|].
  split; [unfold loadState; now rewrite He3, Hl3|].
  split; [exact Hi3|].
  now rewrite Hc3, Hc1, app_assoc.
Qed.

Lemma error_preview_load_witness :
  let s := mount (plainProps (SrcFile 7) None) noHook "" in
  let s' := run s [ImgError 1; PreviewUrl "blob:7"; ImgLoad 2] in
  loadState s' = LOADED
  /\ calls s' = [CbError 1; CbLoad 2]
  /\ imageSrc s' = SrcFile 7.
Proof.
  intros s s'.
  destruct (error_preview_load s 1 2 "blob:7" eq_refl eq_refl eq_refl
              eq_refl) as (_ & _ & _ & _ & H1 & H2 & H3).
  split; [exact H1|]. split; [exact H3 | exact H2].
Defined.

(** ** Decorations *)

Lemma run_config (evs : list Event) : forall s,
  forallb (fun ev => negb (isRerender ev)) evs = true ->
  props (run s evs) = props s.
Proof.
  induction evs as [|ev evs IH]; intros s Hall; simpl in *; auto.
  apply andb_true_iff in Hall as [Hev Hevs].
  apply negb_true_iff in Hev.
  rewrite IH by assumption. now apply step_config.
Qed.

(** X15.  Placeholder and gallery shadow follow the properties alone: however
    the load proceeds (intersection, load, failure, preview, pointer), they
    are mounted exactly when configured, so a configured placeholder is
    still mounted beneath a loaded image or an error region.  The overlay
    is mounted on the same terms. *)
Theorem decorations_follow_props (s : State) (evs : list Event) :
  forallb (fun ev => negb (isRerender ev)) evs = true ->
  let s' := run s evs in
  placeholderRegion (render s') = placeholder (props s)
  /\ galleryShadow (render s') = gallery (props s)
  /\ mouseWired (render s') = hasMouseEvent (props s)
  /\ (overlayHidden (render s') <> None
      <-> overlayContent (props s) = true).
Proof.
  intros Hall s'. pose proof (run_config evs s Hall) as Hp. fold s' in Hp.
  unfold render, renderOverlay; simpl. rewrite Hp.
  repeat split; destruct (overlayContent (props s));
    congruence || discriminate.
Qed.

Lemma decorations_follow_props_witness :
  let p := mkProps (SrcString "a.png") None None false None false true true
                   true true in
  let loaded := run (mount p noHook "") [ImgLoad 1] in
  let failed := run (mount p noHook "") [ImgError 1] in
  loadState loaded = LOADED /\ placeholderRegion (render loaded) = true
  /\ loadState failed = ERRORED /\ placeholderRegion (render failed) = true
  /\ galleryShadow (render failed) = true.
Proof.
  intros p loaded failed.
  destruct (decorations_follow_props (mount p noHook "") [ImgLoad 1]
              eq_refl) as (Hl & _).
  destruct (decorations_follow_props (mount p noHook "") [ImgError 1]
              eq_refl) as (Hf & Hg & _).
  split; [reflexivity|]. split; [exact Hl|].
  split; [reflexivity|]. split; [exact Hf | exact Hg].
Defined.

(** ** Error-clear rule, in full *)

Lemma errored_is_ready (evs : list Event) (p : ImageProps) (l : Locale)
    (pv : string) :
  hasError (run (mount p l pv) evs) = true ->
  shouldLoad (run (mount p l pv) evs) = true.
Proof.
  intros He. destruct (shouldLoad (run (mount p l pv) evs)) eqn:Hs; auto.
  destruct (run_before_ready evs (mount p l pv)) as (_ & He' & _); auto.
  - intros _. apply mount_flags.
  - congruence.
Qed.

(** C9, as the code has it.  In a state the instance can reach, when
    [hasError] holds and the preview URL changes to a non-empty value, the
    error flag is cleared and nothing else changes but the preview URL:
    properties, locale, source, loaded flag, gate, overlay flag, observer and
    call log stay.  The error region is unmounted and the content region is
    mounted again, with the loading indicator unless a load was recorded; it
    holds an [<img>], so that the load is attempted again, except in
    source-set mode with a falsy [src].  The state returns to NOT_STARTED
    when no load had been recorded, and to LOADED when [isLoaded] was already
    set. *)
Theorem preview_clears_error (p0 : ImageProps) (l0 : Locale) (pv : string)
    (evs : list Event) (u : string) :
  let s := run (mount p0 l0 pv) evs in
  hasError s = true ->
  u <> previewUrl s ->
  truthyString u = true ->
  let s' := step s (PreviewUrl u) in
  s' = setHasError false (setPreviewUrl u s)
  /\ hasError s' = false
  /\ previewUrl s' = u
  /\ (props s' = props s /\ local s' = local s
      /\ imageSrc s' = imageSrc s /\ isLoaded s' = isLoaded s
      /\ shouldLoad s' = shouldLoad s
      /\ shouldShowOverlay s' = shouldShowOverlay s
      /\ observing s' = observing s /\ calls s' = calls s)
  /\ loadState s' = (if isLoaded s then LOADED else NOT_STARTED)
  /\ errorRegion (render s') = false
  /\ contentRegion (render s') <> None
  /\ loadingIndicator (render s') = negb (isLoaded s)
  /\ imgMounted s'
     = negb (srcsetMode (props s)) || truthy (src (props s)).
Proof.
  intros s He Hu Ht s'.
  pose proof (errored_is_ready evs p0 l0 pv He) as Hs. fold s in Hs.
  assert (Hne : String.eqb u (previewUrl s) = false).
  { destruct (String.eqb u (previewUrl s)) eqn:E; auto.
    apply String.eqb_eq in E. contradiction. }
  assert (Hs' : s' = setHasError false (setPreviewUrl u s))
    by (subst s'; now apply step_preview_clears).
  clearbody s s'. subst s'.
  split; [reflexivity|]. split; [reflexivity|]. split; [reflexivity|].
  split; [repeat split|].
  split; [reflexivity|]. split; [reflexivity|].
  split.
  { unfold render, contentCondition; simpl. rewrite Hs; simpl.
    destruct (srcset (props s)) as [[|e es]|]; discriminate. }
  split.
  { unfold render, contentCondition; simpl. now rewrite Hs. }
  rewrite imgMounted_spec. unfold contentCondition; simpl.
  now rewrite Hs.
Qed.

Lemma preview_clears_error_witness :
  let f := run (mount (plainProps (SrcFile 7) None) noHook "") [ImgError 1] in
  let bare := withSrcset [("image/webp", "a.webp")]
                         (plainProps SrcUndefined None) in
  let g := run (mount (plainProps (SrcString "a.png") None) noHook "")
               [ImgError 1; Rerender bare noHook] in
  (hasError f = true
   /\ hasError (step f (PreviewUrl "blob:7")) = false
   /\ loadState (step f (PreviewUrl "blob:7")) = NOT_STARTED
   /\ imgMounted (step f (PreviewUrl "blob:7")) = true)
  /\ (hasError g = true
      /\ hasError (step g (PreviewUrl "x")) = false
      /\ contentRegion (render (step g (PreviewUrl "x"))) <> None
      /\ imgMounted (step g (PreviewUrl "x")) = false).
Proof.
  intros f bare g.
  assert (Hf : "blob:7" <> previewUrl f) by discriminate.
  assert (Hg : "x" <> previewUrl g) by discriminate.
  destruct (preview_clears_error (plainProps (SrcFile 7) None) noHook ""
              [ImgError 1] "blob:7" eq_refl Hf eq_refl)
    as (_ & F1 & _ & _ & F2 & _ & _ & _ & F3).
  destruct (preview_clears_error (plainProps (SrcString "a.png") None)
              noHook "" [ImgError 1; Rerender bare noHook] "x" eq_refl Hg
              eq_refl)
    as (_ & G1 & _ & _ & _ & _ & G2 & _ & G3).
  split.
  - split; [reflexivity|]. split; [exact F1|]. split; [exact F2 | exact F3].
  - split; [reflexivity|]. split; [exact G1|]. split; [exact G2 | exact G3].
Defined.
